(** * AirQ authentication backend: register, login and me

    A shallow embedding of the Express server of the repository (the file
    that defines [userSchema], the [User] model and the three routes
    [POST /api/auth/register], [POST /api/auth/login] and
    [GET /api/auth/me]), and the properties its specification states.

    The handlers are programs over the calls they make to mongoose,
    bcryptjs and jsonwebtoken.  The programs follow the source line by
    line; the libraries are given a semantics separately:
    - the [User] collection is a list of documents, with the schema's
      setters, validators, default and unique index;
    - bcryptjs and jsonwebtoken are an interface ([Crypto]) with the laws
      the handlers rely on, and one small executable instance of it;
    - the string functions of the JavaScript runtime that the schema
      relies on ([toLowerCase], [trim], [length]) are an interface
      ([JS.Strings]) too, with the runtime on strings of Latin-1
      characters written out as its executable instance.

    Request bodies are JSON objects whose property values are strings (what
    the forms of the frontend post); a property that is absent reads as
    [undefined]. *)

From Stdlib Require Import String Ascii List NArith Bool Lia.
From stdpp Require Import base strings pretty gmap list.

Local Open Scope string_scope.
Local Open Scope N_scope.

(** ** The JavaScript string functions the code and the schema use *)

Module JS.

(** *** On strings of Latin-1 characters

    What [toLowerCase], [trim] and [length] do to a string whose
    characters are the 256 of Latin-1 (U+0000 to U+00FF, the ASCII ones
    among them), each written as one character, is written out here. *)

(** [c.toLowerCase()] on one Latin-1 character: A..Z to a..z, and the
    accented capitals U+00C0..U+00DE, the multiplication sign U+00D7
    apart, to their small letters. *)
Definition lower_char (c : ascii) : ascii :=
  let n := N_of_ascii c in
  if ((65 <=? n) && (n <=? 90))
     || ((192 <=? n) && (n <=? 222) && negb (n =? 215))
  then ascii_of_N (n + 32) else c.

Fixpoint latin1_toLowerCase (s : string) : string :=
  match s with
  | EmptyString => EmptyString
  | String c s' => String (lower_char c) (latin1_toLowerCase s')
  end.

(** The white space of Latin-1: tab, line feed, vertical tab, form feed,
    carriage return, space and the no-break space U+00A0. *)
Definition is_space (c : ascii) : bool :=
  let n := N_of_ascii c in
  ((9 <=? n) && (n <=? 13)) || (n =? 32) || (n =? 160).

Fixpoint trimStart (s : string) : string :=
  match s with
  | EmptyString => EmptyString
  | String c s' => if is_space c then trimStart s' else s
  end.

Fixpoint trimEnd (s : string) : string :=
  match s with
  | EmptyString => EmptyString
  | String c s' =>
      match trimEnd s' with
      | EmptyString => if is_space c then EmptyString else String c EmptyString
      | t => String c t
      end
  end.

Definition latin1_trim (s : string) : string := trimEnd (trimStart s).

(** A string of ASCII characters only. *)
Fixpoint is_ascii (s : string) : bool :=
  match s with
  | EmptyString => true
  | String c s' => (N_of_ascii c <? 128) && is_ascii s'
  end.

(** *** On all strings

    [s.toLowerCase()], [s.trim()] and [s.length] of the JavaScript
    runtime, which know all of Unicode: [trim] strips every Unicode space,
    [toLowerCase] lowercases every capital, [length] counts UTF-16 code
    units.  How a character outside ASCII is written in a string is left
    to them.  They are what the functions above say on ASCII strings;
    trimming a trimmed string changes nothing; a lowercased string that is
    trimmed is still in lower case. *)
Class Strings : Type := {
  toLowerCase : string → string;
  trim : string → string;
  length : string → nat;
  toLowerCase_on_ascii : ∀ s,
    is_ascii s = true → toLowerCase s = latin1_toLowerCase s;
  trim_on_ascii : ∀ s, is_ascii s = true → trim s = latin1_trim s;
  length_on_ascii : ∀ s, is_ascii s = true → length s = String.length s;
  trim_trim : ∀ s, trim (trim s) = trim s;
  toLowerCase_trim_toLowerCase : ∀ s,
    toLowerCase (trim (toLowerCase s)) = trim (toLowerCase s)
}.

(** [s.split(sep)] for a separator of one character: the pieces between
    the separators, empty pieces included. *)
Fixpoint split (sep : ascii) (s : string) : list string :=
  match s with
  | EmptyString => [EmptyString]
  | String c s' =>
      if Ascii.eqb c sep then EmptyString :: split sep s'
      else match split sep s' with
           | [] => [String c EmptyString]
           | w :: ws => String c w :: ws
           end
  end.

(** Truthiness of a body property: [undefined] and the empty string are
    falsy, every other string is truthy. *)
Definition truthy (v : option string) : bool :=
  match v with
  | None => false
  | Some s => negb (String.eqb s "")
  end.

(** [haystack.includes(needle)]. *)
Fixpoint includes (haystack needle : string) : bool :=
  String.prefix needle haystack
  || match haystack with
     | EmptyString => false
     | String _ h' => includes h' needle
     end.

(** [arr.join(sep)]. *)
Fixpoint join (sep : string) (l : list string) : string :=
  match l with
  | [] => ""
  | [x] => x
  | x :: l' => x +:+ sep +:+ join sep l'
  end.

End JS.

(** ** JSON values, as [res.json] sends them *)

#[local] Unset Elimination Schemes.
Inductive json : Type :=
| JNull
| JBool (b : bool)
| JNum (n : N)
| JStr (s : string)
| JObj (fields : list (string * json)).
#[local] Set Elimination Schemes.

(** The value of property [k] of an object. *)
Definition json_get (k : string) (j : json) : option json :=
  match j with
  | JObj fields => snd <$> List.find (λ kv, String.eqb (fst kv) k) fields
  | _ => None
  end.

(** The property names of an object. *)
Definition json_keys (j : json) : list string :=
  match j with
  | JObj fields => fst <$> fields
  | _ => []
  end.

(** Every string that occurs as a value anywhere in a JSON document. *)
Fixpoint json_strings (j : json) : list string :=
  match j with
  | JStr s => [s]
  | JObj fields => flat_map (λ kv, json_strings (snd kv)) fields
  | _ => []
  end.

(** ** Data model *)

(** [role: { type: String, enum: ['user', 'admin'], default: 'user' }] *)
Inductive Role : Type := Role_user | Role_admin.

Definition Role_toString (r : Role) : string :=
  match r with Role_user => "user" | Role_admin => "admin" end.

Global Instance Role_eq_dec : EqDecision Role.
Proof. solve_decision. Defined.

(** A [User] document.  [password] is [None] on a document that a query
    returned without selecting the field ([select: false]).  [_id] is the
    ObjectId, a 96-bit number; the time stamps come from
    [timestamps: true]. *)
Record Doc : Type := {
  _id : N;
  firstName : string;
  lastName : string;
  email : string;
  password : option string;
  role : Role;
  createdAt : N;
  updatedAt : N
}.

(** The hexadecimal digit of a number below 16. *)
Definition hex_digit (n : N) : ascii :=
  if n <? 10 then ascii_of_N (48 + n) else ascii_of_N (87 + n).

(** [ObjectId.prototype.toHexString]: 24 hexadecimal digits, which is how
    [res.json] and [jwt.sign] serialise an [_id]. *)
Definition toHexString (id : N) : string :=
  string_of_list_ascii
    ((λ i : nat, hex_digit (N.land (N.shiftr id (4 * N.of_nat i)) 15))
       <$> rev (seq 0 24)).

(** An HTTP request, as far as the handlers read it: the parsed JSON body
    and the [Authorization] header. *)
Record Request : Type := {
  body : gmap string string;
  authorization : option string
}.

(** What a handler sends: [res.status(n).json(j)]. *)
Record Response : Type := {
  status : nat;
  json_body : json
}.

(** What the world supplies to one request: the clock (seconds since the
    epoch) and the salt bcryptjs draws. *)
Record Env : Type := {
  now : N;
  salt : string
}.

(** ** bcryptjs and jsonwebtoken *)

(** The payload [generateAuthToken] signs: [{ id: this._id, role: this.role }]. *)
Record JwtPayload : Type := {
  payload_id : N;
  payload_role : Role
}.

(** What [jwt.verify] returns: the payload with the issue and expiry times
    jsonwebtoken added when it signed.  The id is kept as the number; the
    token carries its hexadecimal form, which [findById] casts back. *)
Record JwtDecoded : Type := {
  decoded_id : N;
  decoded_role : Role;
  decoded_iat : N;
  decoded_exp : N
}.

(** The two libraries, as the server uses them.
    - [bcrypt_hash s rounds salt] is [bcrypt.hash(s, rounds)] when bcryptjs
      draws [salt]; [bcrypt_compare s hash] is [bcrypt.compare(s, hash)].
    - [jwt_sign payload secret expiresIn t] is
      [jwt.sign(payload, secret, {expiresIn})] at time [t] (seconds);
      [jwt_verify token secret t] is [jwt.verify(token, secret)] at time
      [t]: the decoded payload, or the message of the error it throws.
    The laws are the documented behaviour of the libraries: a hash matches
    the string it was made from; a token verifies under the secret that
    signed it until its expiry, and is refused as expired from then on. *)
Class Crypto : Type := {
  bcrypt_hash : string → nat → string → string;
  bcrypt_compare : string → string → bool;
  jwt_sign : JwtPayload → string → N → N → string;
  jwt_verify : string → string → N → string + JwtDecoded;
  bcrypt_compare_hash : ∀ s rounds slt,
    bcrypt_compare s (bcrypt_hash s rounds slt) = true;
  jwt_verify_sign : ∀ p secret expiresIn t0 t,
    t < t0 + expiresIn →
    jwt_verify (jwt_sign p secret expiresIn t0) secret t
    = inr {| decoded_id := payload_id p; decoded_role := payload_role p;
             decoded_iat := t0; decoded_exp := t0 + expiresIn |};
  jwt_verify_expired : ∀ p secret expiresIn t0 t,
    t0 + expiresIn ≤ t →
    jwt_verify (jwt_sign p secret expiresIn t0) secret t = inl "jwt expired"
}.

(** What depends on the versions of mongoose and of the driver and on
    their options, none of which the repository pins.
    - How a filter property whose value is [undefined] reaches MongoDB: the
      property is dropped, and the query matches any document ([true]), or
      it is sent as [null], and the query matches the documents that lack
      the path ([false]).
    - How the message of the [minlength] validator goes on after the value
      it quotes: [minlength_tail value n].
    Everything below holds for every choice. *)
Class Driver : Type := {
  undefined_filter_matches_any : bool;
  minlength_tail : string → nat → string
}.

(** ** Programs over the library calls *)

(** The object literal the register handler passes to [User.create]: these
    four properties and no other. *)
Record CreateFields : Type := {
  create_firstName : option string;
  create_lastName : option string;
  create_email : option string;
  create_password : option string
}.

(** The calls the handlers make, indexed by the type of their result:
    - [User.findOne({ email })], with or without [.select('+password')];
    - [User.findById(id)];
    - [User.create({ firstName, lastName, email, password })];
    - [bcrypt.compare(candidate, hash)];
    - [jwt.sign(payload, secret, { expiresIn })];
    - [jwt.verify(token, secret)]. *)
Inductive LibCall : Type → Type :=
| User_findOne (filter_email : option string) (select_password : bool)
    : LibCall (option Doc)
| User_findById (id : N) : LibCall (option Doc)
| User_create (fields : CreateFields) : LibCall Doc
| bcrypt_compare_call (candidate : option string) (hash : option string)
    : LibCall bool
| jwt_sign_call (payload : JwtPayload) (secret : string) (expiresIn : N)
    : LibCall string
| jwt_verify_call (token : option string) (secret : string)
    : LibCall JwtDecoded.

(** A program either returns, throws an error (kept as its [message]), or
    makes a call and goes on with its outcome: the value, or the error a
    rejected call carries. *)
Inductive Prog (A : Type) : Type :=
| Ret (a : A)
| Throw (message : string)
| Call {R : Type} (c : LibCall R) (k : string + R → Prog A).

Arguments Ret {A} a.
Arguments Throw {A} message.
Arguments Call {A R} c k.

Fixpoint bind {A B : Type} (p : Prog A) (f : A → Prog B) : Prog B :=
  match p with
  | Ret a => f a
  | Throw e => Throw e
  | Call c k => Call c (λ r, bind (k r) f)
  end.

Global Instance Prog_ret : MRet Prog := @Ret.
Global Instance Prog_bind : MBind Prog := λ A B f p, bind p f.

(** [await call]: the value of a fulfilled call; a rejected call throws. *)
Definition await {R : Type} (c : LibCall R) : Prog R :=
  Call c (λ r, match r with inl e => Throw e | inr v => Ret v end).

(** [try { p } catch (error) { h(error.message) }] *)
Fixpoint try_catch {A : Type} (p : Prog A) (h : string → Prog A) : Prog A :=
  match p with
  | Ret a => Ret a
  | Throw e => h e
  | Call c k => Call c (λ r, try_catch (k r) h)
  end.

(** ** The [User] model: schema, hook and collection *)

Module Mongoose.
Section WithLibraries.
Context `{strings : JS.Strings} `{crypto : Crypto} `{driver : Driver}.

(** The setters of the schema: [trim] on the names, [lowercase] and
    [trim] on the email, none on the password. *)
Definition set_name (s : string) : string := JS.trim s.
Definition set_email (s : string) : string := JS.trim (JS.toLowerCase s).

(** [new User(fields)]: the properties that were given, through their
    setters. *)
Definition construct (f : CreateFields) : CreateFields :=
  {| create_firstName := set_name <$> create_firstName f;
     create_lastName := set_name <$> create_lastName f;
     create_email := set_email <$> create_email f;
     create_password := create_password f |}.

(** [required: [true, msg]] on a string path: the value must be a string
    that is not empty. *)
Definition required (msg : string) (v : option string) : option string :=
  if JS.truthy v then None else Some msg.

(** [minlength: n]: skipped on [undefined], else the default message of
    the validator, which quotes the path and the value and goes on as the
    version of mongoose has it. *)
Definition minlength (path : string) (n : nat) (v : option string)
  : option string :=
  match v with
  | None => None
  | Some s =>
      if (JS.length s <? n)%nat
      then Some ("Path `" +:+ path +:+ "` (`" +:+ s +:+ minlength_tail s n)
      else None
  end.

(** The validators of one path run in order and the first failure is the
    error of the path. *)
Definition first_error (path : string) (checks : list (option string))
  : list (string * string) :=
  match omap id checks with
  | [] => []
  | msg :: _ => [(path, msg)]
  end.

(** Validation of a new document, path by path in the order of the
    schema.  (Mongoose reports the failing paths in its own order; no
    statement below depends on the order of two failures.) *)
Definition validate (d : CreateFields) : list (string * string) :=
  (first_error "firstName"
     [required "Please provide your first name" (create_firstName d)]
   ++ first_error "lastName"
     [required "Please provide your last name" (create_lastName d)]
   ++ first_error "email"
     [required "Please provide your email" (create_email d)]
   ++ first_error "password"
     [required "Please provide a password" (create_password d);
      minlength "password" 5 (create_password d)])%list.

(** The message of the [ValidationError] of model [User]. *)
Definition ValidationError_message (errors : list (string * string))
  : string :=
  "User validation failed: "
  +:+ JS.join ", " ((λ e, fst e +:+ ": " +:+ snd e) <$> errors).

Definition typeof (v : option string) : string :=
  match v with Some _ => "string" | None => "undefined" end.

(** [userSchema.pre('save', ...)]: leave the document alone unless the
    password was modified, else replace the password by its bcrypt hash
    with 10 rounds.  [bcrypt.hash] rejects a value that is not a string. *)
Definition pre_save (isModified_password : bool) (slt : string)
    (this : Doc) : string + Doc :=
  if negb isModified_password then inr this
  else match password this with
       | Some pw =>
           inr {| _id := _id this; firstName := firstName this;
                  lastName := lastName this; email := email this;
                  password := Some (bcrypt_hash pw 10 slt);
                  role := role this; createdAt := createdAt this;
                  updatedAt := updatedAt this |}
       | None => inl "Illegal arguments: undefined, number"
       end.

(** A query result without the [password] path ([select: false]). *)
Definition deselect_password (d : Doc) : Doc :=
  {| _id := _id d; firstName := firstName d; lastName := lastName d;
     email := email d; password := None; role := role d;
     createdAt := createdAt d; updatedAt := updatedAt d |}.

Definition project (select_password : bool) (d : Doc) : Doc :=
  if select_password then d else deselect_password d.

(** [User.findOne({ email })]: the filter is cast through the setters of
    the path (mongoose runs the setters of a path on the filters of a
    query since its version 5, the first to know the options this server
    connects with), and the first document with that email is returned.
    With [undefined] for the email the query matches any document or the
    documents without an email, see [Driver]; a stored document always
    has an email. *)
Definition findOne (filter_email : option string) (select_password : bool)
    (db : list Doc) : option Doc :=
  match filter_email with
  | None =>
      if undefined_filter_matches_any
      then project select_password <$> head db
      else None
  | Some e =>
      project select_password
        <$> List.find (λ d, String.eqb (email d) (set_email e)) db
  end.

(** [User.findById(id)]. *)
Definition findById (id : N) (db : list Doc) : option Doc :=
  project false <$> List.find (λ d, _id d =? id) db.

(** The ObjectId of a new document: one that no document of the
    collection has. *)
Definition new_ObjectId (db : list Doc) : N :=
  N.succ (foldr N.max 0 (_id <$> db)).

(** [User.create(fields)]: construct, validate, run the [pre('save')]
    hook, insert.  The insert is refused by the unique index on [email]
    with the driver's E11000 error, whose message is cut here after its
    first words.  The properties are read with a default that validation
    has made unreachable; the role is the schema's default; the time
    stamps are the clock. *)
Definition create (f : CreateFields) (env : Env) (db : list Doc)
  : (string + Doc) * list Doc :=
  let d := construct f in
  match validate d with
  | (_ :: _) as errors => (inl (ValidationError_message errors), db)
  | [] =>
      let this :=
        {| _id := new_ObjectId db;
           firstName := default "" (create_firstName d);
           lastName := default "" (create_lastName d);
           email := default "" (create_email d);
           password := create_password d;
           role := Role_user;
           createdAt := now env;
           updatedAt := now env |} in
      match pre_save (bool_decide (is_Some (create_password d)))
              (salt env) this with
      | inl e => (inl e, db)
      | inr doc =>
          if existsb (λ d', String.eqb (email d') (email doc)) db
          then (inl "E11000 duplicate key error", db)
          else (inr doc, (db ++ [doc])%list)
      end
  end.

(** What each call does to the collection and what it answers. *)
Definition handle {R : Type} (c : LibCall R) (env : Env) (db : list Doc)
  : (string + R) * list Doc :=
  match c in LibCall R return (string + R) * list Doc with
  | User_findOne e sel => (inr (findOne e sel db), db)
  | User_findById id => (inr (findById id db), db)
  | User_create f => create f env db
  | bcrypt_compare_call candidate hash =>
      (match candidate, hash with
       | Some s, Some h => inr (bcrypt_compare s h)
       | _, _ => inl ("Illegal arguments: " +:+ typeof candidate +:+ ", "
                      +:+ typeof hash)
       end, db)
  | jwt_sign_call p secret expiresIn =>
      (inr (jwt_sign p secret expiresIn (now env)), db)
  | jwt_verify_call token secret =>
      (match token with
       | Some t => jwt_verify t secret (now env)
       | None => inl "jwt must be provided"
       end, db)
  end.

(** Running a program against the collection. *)
Fixpoint run {A : Type} (p : Prog A) (env : Env) (db : list Doc)
  : (string + A) * list Doc :=
  match p with
  | Ret a => (inr a, db)
  | Throw e => (inl e, db)
  | Call c k =>
      let '(r, db') := handle c env db in run (k r) env db'
  end.

End WithLibraries.
End Mongoose.

(** ** The server *)

Definition JWT_SECRET : string := "your_jwt_secret_key".

(** ['30d'] as jsonwebtoken reads it, in seconds. *)
Definition days (n : N) : N := n * 86400.

(** [userSchema.methods.comparePassword] *)
Definition comparePassword (this : Doc) (candidatePassword : option string)
  : Prog bool :=
  await (bcrypt_compare_call candidatePassword (password this)).

(** [userSchema.methods.generateAuthToken] *)
Definition generateAuthToken (this : Doc) : Prog string :=
  await (jwt_sign_call {| payload_id := _id this; payload_role := role this |}
           JWT_SECRET (days 30)).

(** The [user] object of the success responses. *)
Definition public_user (u : Doc) : json :=
  JObj [("id", JStr (toHexString (_id u)));
        ("firstName", JStr (firstName u));
        ("lastName", JStr (lastName u));
        ("email", JStr (email u));
        ("role", JStr (Role_toString (role u)))].

Definition failure (code : nat) (message : string) : Response :=
  {| status := code;
     json_body := JObj [("success", JBool false); ("message", JStr message)] |}.

(** The [catch (error)] branch that the three handlers share. *)
Definition server_error (error_message : string) : Prog Response :=
  mret {| status := 500;
          json_body := JObj [("success", JBool false);
                             ("message", JStr "Server error");
                             ("error", JStr error_message)] |}.

(** [app.post('/api/auth/register', ...)] *)
Definition register (req : Request) : Prog Response :=
  try_catch
    (existingUser ← await (User_findOne (body req !! "email") false);
     match existingUser with
     | Some _ => mret (failure 400 "Email is already registered")
     | None =>
         newUser ← await (User_create
           {| create_firstName := body req !! "firstName";
              create_lastName := body req !! "lastName";
              create_email := body req !! "email";
              create_password := body req !! "password" |});
         token ← generateAuthToken newUser;
         mret {| status := 201;
                 json_body := JObj [("success", JBool true);
                                    ("token", JStr token);
                                    ("user", public_user newUser)] |}
     end)
    server_error.

(** [app.post('/api/auth/login', ...)] *)
Definition login (req : Request) : Prog Response :=
  try_catch
    (let email := body req !! "email" in
     let password := body req !! "password" in
     if negb (JS.truthy email) || negb (JS.truthy password)
     then mret (failure 400 "Please provide email and password")
     else
       user ← await (User_findOne email true);
       match user with
       | None => mret (failure 401 "Invalid email or password")
       | Some user =>
           matches ← comparePassword user password;
           if negb matches
           then mret (failure 401 "Invalid email or password")
           else
             token ← generateAuthToken user;
             mret {| status := 200;
                     json_body := JObj [("success", JBool true);
                                        ("token", JStr token);
                                        ("user", public_user user)] |}
       end)
    server_error.

(** [req.headers.authorization?.split(' ')[1]] *)
Definition bearer_token (req : Request) : option string :=
  h ← authorization req; JS.split " " h !! 1%nat.

(** [app.get('/api/auth/me', ...)] *)
Definition me (req : Request) : Prog Response :=
  try_catch
    (let token := bearer_token req in
     if negb (JS.truthy token)
     then mret (failure 401 "Not authorized to access this route")
     else
       decoded ← await (jwt_verify_call token JWT_SECRET);
       user ← await (User_findById (decoded_id decoded));
       match user with
       | None => mret (failure 404 "User not found")
       | Some user =>
           mret {| status := 200;
                   json_body := JObj [("success", JBool true);
                                      ("user", public_user user)] |}
       end)
    server_error.

(** ** An executable instance of the two libraries

    A stand-in for bcryptjs and jsonwebtoken that satisfies the laws of
    [Crypto] and computes, so that the handlers can be run on concrete
    requests.  Numbers are written in binary, least significant bit first,
    and closed by a dot.  A hash records the rounds, the salt and the
    string; a token records its four claims and a checksum that depends on
    the secret.  It has the interface of the libraries, not their
    strength. *)

Module Toy.

Fixpoint write_pos (p : positive) (rest : string) : string :=
  match p with
  | xH => String "1" (String "." rest)
  | xO p' => String "0" (write_pos p' rest)
  | xI p' => String "1" (write_pos p' rest)
  end.

Definition write_N (n : N) (rest : string) : string :=
  match n with
  | N0 => String "." rest
  | Npos p => write_pos p rest
  end.

Fixpoint read_N (s : string) : option (N * string) :=
  match s with
  | EmptyString => None
  | String c s' =>
      if Ascii.eqb c "." then Some (0, s')
      else if Ascii.eqb c "0" then
        '(n, rest) ← read_N s'; Some (2 * n, rest)
      else if Ascii.eqb c "1" then
        '(n, rest) ← read_N s'; Some (2 * n + 1, rest)
      else None
  end.

Fixpoint skip (n : nat) (s : string) : string :=
  match n, s with
  | O, _ => s
  | S n', String _ s' => skip n' s'
  | S _, EmptyString => EmptyString
  end.

Definition checksum (s : string) : N :=
  fold_right (λ c acc, N_of_ascii c + 2 * acc) 1 (list_ascii_of_string s).

Definition hash (s : string) (rounds : nat) (slt : string) : string :=
  write_N (N.of_nat rounds)
    (write_N (N.of_nat (String.length slt)) (slt +:+ s)).

Definition compare (s h : string) : bool :=
  match read_N h with
  | Some (_, h1) =>
      match read_N h1 with
      | Some (len, h2) => String.eqb (skip (N.to_nat len) h2) s
      | None => false
      end
  | None => false
  end.

Definition role_code (r : Role) : N :=
  match r with Role_user => 0 | Role_admin => 1 end.

Definition mac (secret : string) (id : N) (r : Role) (iat exp : N) : N :=
  checksum secret + id + role_code r + iat + exp.

Definition sign (p : JwtPayload) (secret : string) (expiresIn t0 : N)
  : string :=
  write_N (payload_id p)
    (write_N (role_code (payload_role p))
       (write_N t0
          (write_N (t0 + expiresIn)
             (write_N (mac secret (payload_id p) (payload_role p)
                         t0 (t0 + expiresIn)) "")))).

Definition read_claims (token : string) : option (JwtDecoded * N) :=
  '(id, s1) ← read_N token;
  '(rc, s2) ← read_N s1;
  '(iat, s3) ← read_N s2;
  '(exp, s4) ← read_N s3;
  '(tag, s5) ← read_N s4;
  r ← (if rc =? 0 then Some Role_user
       else if rc =? 1 then Some Role_admin else None);
  if String.eqb s5 "" then
    Some ({| decoded_id := id; decoded_role := r;
             decoded_iat := iat; decoded_exp := exp |}, tag)
  else None.

Definition verify (token secret : string) (t : N) : string + JwtDecoded :=
  match read_claims token with
  | None => inl "jwt malformed"
  | Some (d, tag) =>
      if negb (tag =? mac secret (decoded_id d) (decoded_role d)
                        (decoded_iat d) (decoded_exp d))
      then inl "invalid signature"
      else if decoded_exp d <=? t then inl "jwt expired"
      else inr d
  end.

End Toy.

(** The instance satisfies the laws. *)

Module ToyFacts.
Import Toy.

Lemma read_write_pos p rest :
  read_N (write_pos p rest) = Some (Npos p, rest).
Proof.
  induction p as [p IH | p IH |]; simpl; [rewrite IH | rewrite IH |];
    reflexivity.
Qed.

Lemma read_write_N n rest : read_N (write_N n rest) = Some (n, rest).
Proof. destruct n; [reflexivity | apply read_write_pos]. Qed.

Lemma skip_app s1 s2 : skip (String.length s1) (s1 +:+ s2) = s2.
Proof. induction s1; simpl; auto. Qed.

Lemma compare_hash s rounds slt : compare s (hash s rounds slt) = true.
Proof.
  unfold compare, hash. rewrite !read_write_N, Nat2N.id, skip_app.
  apply String.eqb_refl.
Qed.

Lemma read_claims_sign p secret expiresIn t0 :
  read_claims (sign p secret expiresIn t0)
  = Some ({| decoded_id := payload_id p; decoded_role := payload_role p;
             decoded_iat := t0; decoded_exp := t0 + expiresIn |},
          mac secret (payload_id p) (payload_role p) t0 (t0 + expiresIn)).
Proof.
  unfold read_claims, sign. rewrite !read_write_N. simpl.
  rewrite !read_write_N. simpl. rewrite !read_write_N. simpl.
  rewrite !read_write_N. simpl. rewrite !read_write_N. simpl.
  destruct (payload_role p); reflexivity.
Qed.

Lemma verify_sign p secret expiresIn t0 t :
  t < t0 + expiresIn →
  verify (sign p secret expiresIn t0) secret t
  = inr {| decoded_id := payload_id p; decoded_role := payload_role p;
           decoded_iat := t0; decoded_exp := t0 + expiresIn |}.
Proof.
  intros Ht. unfold verify. rewrite read_claims_sign. simpl.
  rewrite N.eqb_refl. simpl.
  destruct (N.leb_spec (t0 + expiresIn) t); [lia | reflexivity].
Qed.

Lemma verify_expired p secret expiresIn t0 t :
  t0 + expiresIn ≤ t →
  verify (sign p secret expiresIn t0) secret t = inl "jwt expired".
Proof.
  intros Ht. unfold verify. rewrite read_claims_sign. simpl.
  rewrite N.eqb_refl. simpl.
  destruct (N.leb_spec (t0 + expiresIn) t); [reflexivity | lia].
Qed.

(** The wording of the [minlength] message up to mongoose 8.17. *)
Definition tail_8_17 (value : string) (n : nat) : string :=
  "`) is shorter than the minimum allowed length (" +:+ pretty n +:+ ").".

Definition driver : Driver :=
  {| undefined_filter_matches_any := false; minlength_tail := tail_8_17 |}.

Definition crypto : Crypto :=
  {| bcrypt_hash := hash;
     bcrypt_compare := compare;
     jwt_sign := sign;
     jwt_verify := verify;
     bcrypt_compare_hash := compare_hash;
     jwt_verify_sign := verify_sign;
     jwt_verify_expired := verify_expired |}.

End ToyFacts.

(** ** Facts about the string functions *)

Module JSFacts.
Import JS.

Example split_bearer : split " " "Bearer abc.def" = ["Bearer"; "abc.def"].
Proof. reflexivity. Qed.

Example split_one_word : split " " "Bearer" !! 1%nat = None.
Proof. reflexivity. Qed.

Example split_two_spaces : split " " "Bearer  abc" = ["Bearer"; ""; "abc"].
Proof. reflexivity. Qed.

Example trim_lower_email :
  latin1_trim (latin1_toLowerCase "  Ada@Example.COM ") = "ada@example.com".
Proof. reflexivity. Qed.

Example trim_blank : latin1_trim "   " = "".
Proof. reflexivity. Qed.

(** The no-break space U+00A0 and the capital A with grave U+00C0. *)
Definition nbsp : ascii := ascii_of_N 160.
Definition A_grave : ascii := ascii_of_N 192.

Example trim_no_break_space :
  latin1_trim (String nbsp (" Ada" +:+ String nbsp "")) = "Ada".
Proof. reflexivity. Qed.

Example lower_accented_capital :
  latin1_toLowerCase (String A_grave "DA@X.COM")
  = String (ascii_of_N 224) "da@x.com".
Proof. reflexivity. Qed.

Example includes_inside : includes "Path (`pa55`) is shorter" "pa55" = true.
Proof. reflexivity. Qed.

Example includes_absent : includes "Server error" "pa55" = false.
Proof. reflexivity. Qed.

Lemma is_space_lower c : is_space (lower_char c) = is_space c.
Proof. destruct c as [[] [] [] [] [] [] [] []]; reflexivity. Qed.

Lemma lower_char_idem c : lower_char (lower_char c) = lower_char c.
Proof. destruct c as [[] [] [] [] [] [] [] []]; reflexivity. Qed.

Lemma toLowerCase_idem s :
  latin1_toLowerCase (latin1_toLowerCase s) = latin1_toLowerCase s.
Proof.
  induction s as [| c s IH]; simpl; [reflexivity |].
  now rewrite lower_char_idem, IH.
Qed.

Lemma trimStart_lower s :
  trimStart (latin1_toLowerCase s) = latin1_toLowerCase (trimStart s).
Proof.
  induction s as [| c s IH]; simpl; [reflexivity |].
  rewrite is_space_lower. destruct (is_space c); [exact IH | reflexivity].
Qed.

Lemma trimEnd_lower s :
  trimEnd (latin1_toLowerCase s) = latin1_toLowerCase (trimEnd s).
Proof.
  induction s as [| c s IH]; simpl; [reflexivity |].
  rewrite IH, is_space_lower.
  destruct (trimEnd s); simpl; [destruct (is_space c) |]; reflexivity.
Qed.

Lemma trim_lower s :
  latin1_trim (latin1_toLowerCase s) = latin1_toLowerCase (latin1_trim s).
Proof. unfold latin1_trim. now rewrite trimStart_lower, trimEnd_lower. Qed.

(** A string that is empty or starts with a character that is not white
    space. *)
Definition starts_clean (s : string) : Prop :=
  match s with
  | EmptyString => True
  | String c _ => is_space c = false
  end.

Lemma trimStart_clean s : starts_clean (trimStart s).
Proof.
  induction s as [| c s IH]; simpl; [exact I |].
  destruct (is_space c) eqn:E; [exact IH | exact E].
Qed.

Lemma trimStart_id s : starts_clean s → trimStart s = s.
Proof. destruct s as [| c s]; simpl; [reflexivity |]. now intros ->. Qed.

Lemma trimEnd_clean s : starts_clean s → starts_clean (trimEnd s).
Proof.
  destruct s as [| c s]; simpl; [auto |]. intros Hc.
  destruct (trimEnd s); simpl; [rewrite Hc |]; exact Hc.
Qed.

Lemma trimEnd_idem s : trimEnd (trimEnd s) = trimEnd s.
Proof.
  induction s as [| c s IH]; simpl; [reflexivity |].
  destruct (trimEnd s) as [| c' t] eqn:E.
  - destruct (is_space c) eqn:Ec; simpl; [reflexivity | now rewrite Ec].
  - cbn [trimEnd] in *. rewrite IH. reflexivity.
Qed.

Lemma trim_idem s : latin1_trim (latin1_trim s) = latin1_trim s.
Proof.
  unfold latin1_trim.
  rewrite (trimStart_id (trimEnd (trimStart s))).
  - apply trimEnd_idem.
  - apply trimEnd_clean, trimStart_clean.
Qed.

Lemma truthy_Some s : truthy (Some s) = true ↔ s ≠ "".
Proof.
  simpl. destruct (String.eqb_spec s ""); simpl; split; congruence.
Qed.

Lemma truthy_false v : truthy v = false ↔ v = None ∨ v = Some "".
Proof.
  destruct v as [s |]; simpl.
  - destruct (String.eqb_spec s ""); simpl; split; intros; subst; auto;
      try discriminate.
    destruct H as [? | ?]; congruence.
  - split; auto.
Qed.


(** The Latin-1 functions keep the laws on all strings: they are an
    instance of the interface, the runtime on strings of Latin-1
    characters, and the one the handlers are run with below. *)
Definition latin1_strings : Strings.
Proof.
  refine {| toLowerCase := latin1_toLowerCase;
            trim := latin1_trim;
            length := String.length |}; try reflexivity.
  - apply trim_idem.
  - intros s. rewrite <- trim_lower. now rewrite toLowerCase_idem.
Defined.

End JSFacts.

(** ** What the laws of the string functions give *)

Section StringLaws.
Context `{strings : JS.Strings}.

Lemma length_empty : JS.length "" = 0%nat.
Proof. now rewrite JS.length_on_ascii. Qed.

Lemma trim_empty : JS.trim "" = "".
Proof. now rewrite JS.trim_on_ascii. Qed.

Lemma toLowerCase_empty : JS.toLowerCase "" = "".
Proof. now rewrite JS.toLowerCase_on_ascii. Qed.

(** A string with a character to count is not the empty string. *)
Lemma length_positive s : (0 < JS.length s)%nat → s ≠ "".
Proof. intros Hlen ->. rewrite length_empty in Hlen. lia. Qed.

(** An email that is lowercased and trimmed is left alone by lowercasing
    and trimming it again. *)
Lemma canonical_email_stable s :
  JS.trim (JS.toLowerCase (JS.trim (JS.toLowerCase s)))
  = JS.trim (JS.toLowerCase s).
Proof. now rewrite JS.toLowerCase_trim_toLowerCase, JS.trim_trim. Qed.

End StringLaws.

(** Rewriting the string functions on ASCII strings that are written out. *)
Ltac on_ascii :=
  repeat first
    [ rewrite JS.toLowerCase_on_ascii by reflexivity
    | rewrite JS.trim_on_ascii by reflexivity
    | rewrite JS.length_on_ascii by reflexivity ].


(** A string without a space. *)
Fixpoint no_space (s : string) : bool :=
  match s with
  | EmptyString => true
  | String c s' => negb (Ascii.eqb c " ") && no_space s'
  end.

(** ** Strings *)

Module JSMore.
Import JS.

Lemma app_cons (x : ascii) (a b : string) :
  String x a +:+ b = String x (a +:+ b).
Proof. reflexivity. Qed.

Lemma app_empty_r (a : string) : a +:+ "" = a.
Proof.
  induction a as [| x a IH]; [reflexivity |]. now rewrite app_cons, IH.
Qed.

Lemma prefix_app (b c : string) : String.prefix b (b +:+ c) = true.
Proof.
  induction b as [| x b IH]; [now destruct c |].
  rewrite app_cons. simpl. destruct (ascii_dec x x); [exact IH | congruence].
Qed.

Lemma includes_prefix (s t : string) :
  String.prefix t s = true → includes s t = true.
Proof. destruct s; cbn [includes]; intros ->; reflexivity. Qed.

Lemma includes_here (b c : string) : includes (b +:+ c) b = true.
Proof. apply includes_prefix, prefix_app. Qed.

Lemma includes_later (a s t : string) :
  includes s t = true → includes (a +:+ s) t = true.
Proof.
  intros Hs. induction a as [| x a IH]; [exact Hs |].
  rewrite app_cons. simpl. rewrite IH. apply orb_true_r.
Qed.

(** A string occurs in whatever is built around it. *)
Lemma includes_app (a b c : string) : includes (a +:+ b +:+ c) b = true.
Proof. apply includes_later, includes_here. Qed.

Lemma includes_join sep x l :
  In x l → includes (join sep l) x = true.
Proof.
  induction l as [| y l IH]; [contradiction |].
  intros [-> | Hin].
  - destruct l; simpl.
    + rewrite <- (app_empty_r x) at 1. apply includes_here.
    + apply includes_here.
  - destruct l as [| z l]; [contradiction |].
    change (join sep (y :: z :: l)) with (y +:+ sep +:+ join sep (z :: l)).
    apply includes_later, includes_later, IH, Hin.
Qed.

(** The pieces of a header whose first word has no space. *)
Lemma split_first_word (w rest : string) :
  no_space w = true →
  split " " (w +:+ " " +:+ rest) = w :: split " " rest.
Proof.
  induction w as [| c w IH]; [reflexivity |].
  intros Hw. simpl in Hw. apply andb_true_iff in Hw. destruct Hw as [Hc Hw].
  rewrite app_cons. simpl.
  destruct (Ascii.eqb c " "); [discriminate |].
  now rewrite (IH Hw).
Qed.

End JSMore.

(** ** What the handlers compute *)

Section Handlers.
Context `{strings : JS.Strings} `{crypto : Crypto} `{driver : Driver}.
Import Mongoose.

(** The token [generateAuthToken] makes for [u] at the time of [env]. *)
Definition token_for (u : Doc) (env : Env) : string :=
  jwt_sign {| payload_id := _id u; payload_role := role u |}
    JWT_SECRET (days 30) (now env).

Definition success_token (code : nat) (token : string) (u : Doc) : Response :=
  {| status := code;
     json_body := JObj [("success", JBool true); ("token", JStr token);
                        ("user", public_user u)] |}.

Definition success_user (u : Doc) : Response :=
  {| status := 200;
     json_body := JObj [("success", JBool true); ("user", public_user u)] |}.

Definition error_500 (error_message : string) : Response :=
  {| status := 500;
     json_body := JObj [("success", JBool false);
                        ("message", JStr "Server error");
                        ("error", JStr error_message)] |}.

(** The object literal of the register handler. *)
Definition register_fields (req : Request) : CreateFields :=
  {| create_firstName := body req !! "firstName";
     create_lastName := body req !! "lastName";
     create_email := body req !! "email";
     create_password := body req !! "password" |}.

Lemma run_register req env db :
  run (register req) env db
  = match findOne (body req !! "email") false db with
    | Some _ => (inr (failure 400 "Email is already registered"), db)
    | None =>
        match create (register_fields req) env db with
        | (inl e, db') => (inr (error_500 e), db')
        | (inr u, db') => (inr (success_token 201 (token_for u env) u), db')
        end
    end.
Proof.
  unfold register. cbn.
  destruct (findOne (body req !! "email") false db); cbn; [reflexivity |].
  fold (register_fields req).
  destruct (create (register_fields req) env db) as [[e | u] db']; reflexivity.
Qed.

Lemma run_login req env db :
  run (login req) env db
  = (inr
       (if negb (JS.truthy (body req !! "email"))
           || negb (JS.truthy (body req !! "password"))
        then failure 400 "Please provide email and password"
        else match findOne (body req !! "email") true db with
             | None => failure 401 "Invalid email or password"
             | Some u =>
                 match body req !! "password", password u with
                 | Some s, Some h =>
                     if bcrypt_compare s h
                     then success_token 200 (token_for u env) u
                     else failure 401 "Invalid email or password"
                 | candidate, h =>
                     error_500 ("Illegal arguments: " +:+ typeof candidate
                                +:+ ", " +:+ typeof h)
                 end
             end),
     db).
Proof.
  unfold login. cbn.
  destruct (negb (JS.truthy (body req !! "email"))
            || negb (JS.truthy (body req !! "password"))); [reflexivity |].
  cbn. destruct (findOne (body req !! "email") true db) as [u |];
    [| reflexivity].
  cbn. destruct (body req !! "password") as [s |], (password u) as [h |];
    try reflexivity.
  cbn. destruct (bcrypt_compare s h); reflexivity.
Qed.

Lemma run_me req env db :
  run (me req) env db
  = (inr
       (if negb (JS.truthy (bearer_token req))
        then failure 401 "Not authorized to access this route"
        else match bearer_token req with
             | None => error_500 "jwt must be provided"
             | Some t =>
                 match jwt_verify t JWT_SECRET (now env) with
                 | inl e => error_500 e
                 | inr decoded =>
                     match findById (decoded_id decoded) db with
                     | None => failure 404 "User not found"
                     | Some u => success_user u
                     end
                 end
             end),
     db).
Proof.
  unfold me. cbn.
  destruct (negb (JS.truthy (bearer_token req))); [reflexivity |].
  cbn. destruct (bearer_token req) as [t |]; [| reflexivity].
  destruct (jwt_verify t JWT_SECRET (now env)) as [e | decoded];
    [reflexivity |].
  cbn. destruct (findById (decoded_id decoded) db); reflexivity.
Qed.

End Handlers.

(** ** What [User.create] does *)

Section Create.
Context `{strings : JS.Strings} `{crypto : Crypto} `{driver : Driver}.
Import Mongoose.

(** The document [User.create] inserts for fields that pass validation. *)
Definition new_doc (fn ln e pw : string) (env : Env) (db : list Doc) : Doc :=
  {| _id := new_ObjectId db;
     firstName := set_name fn;
     lastName := set_name ln;
     email := set_email e;
     password := Some (bcrypt_hash pw 10 (salt env));
     role := Role_user;
     createdAt := now env;
     updatedAt := now env |}.

(** The fields pass the validators of the schema: the names and the email
    are given and not blank, the password is given and has five characters
    or more. *)
Definition passes_validation (f : CreateFields) : Prop :=
  ∃ fn ln e pw,
    f = {| create_firstName := Some fn; create_lastName := Some ln;
           create_email := Some e; create_password := Some pw |}
    ∧ set_name fn ≠ "" ∧ set_name ln ≠ "" ∧ set_email e ≠ ""
    ∧ (5 ≤ JS.length pw)%nat.

Lemma set_email_empty : set_email "" = "".
Proof. unfold set_email. now rewrite toLowerCase_empty, trim_empty. Qed.

Lemma required_None msg v : required msg v = None ↔ JS.truthy v = true.
Proof. unfold required. destruct (JS.truthy v); split; congruence. Qed.

Lemma minlength_None path n v :
  minlength path n v = None
  ↔ match v with Some s => (n ≤ JS.length s)%nat | None => True end.
Proof.
  unfold minlength. destruct v as [s |]; [| tauto].
  destruct (Nat.ltb_spec (JS.length s) n); split; intros; try lia;
    congruence.
Qed.

Lemma first_error_nil path checks :
  first_error path checks = [] ↔ Forall (λ c, c = None) checks.
Proof.
  unfold first_error. induction checks as [| [m |] checks IH]; simpl.
  - split; auto.
  - split; [discriminate | intros HF; inversion HF; discriminate].
  - rewrite IH. split; [auto | intros HF; now inversion HF].
Qed.

Lemma validate_nil f :
  validate (construct f) = [] ↔ passes_validation f.
Proof.
  unfold validate, passes_validation.
  rewrite !app_nil, !first_error_nil, !Forall_cons, !Forall_nil.
  rewrite !required_None, minlength_None.
  destruct f as [[fn |] [ln |] [e |] [pw |]]; cbn -[JS.truthy];
    rewrite ?JSFacts.truthy_Some; cbn.
  all: split;
    [ intros ((Hf & _) & (Hl & _) & (He & _) & Hp & Hm & _);
      try discriminate; eauto 10
    | intros (fn' & ln' & e' & pw' & Heq & Hf & Hl & He & Hm);
      try discriminate; inversion Heq; subst; repeat split; auto;
      intros ->; rewrite length_empty in Hm; lia ].
Qed.

Lemma create_valid fn ln e pw env db :
  set_name fn ≠ "" → set_name ln ≠ "" → set_email e ≠ "" →
  (5 ≤ JS.length pw)%nat →
  create {| create_firstName := Some fn; create_lastName := Some ln;
            create_email := Some e; create_password := Some pw |} env db
  = if existsb (λ d', String.eqb (email d') (set_email e)) db
    then (inl "E11000 duplicate key error", db)
    else (inr (new_doc fn ln e pw env db),
          (db ++ [new_doc fn ln e pw env db])%list).
Proof.
  intros Hf Hl He Hp. unfold create.
  assert (Hv : validate (construct
            {| create_firstName := Some fn; create_lastName := Some ln;
               create_email := Some e; create_password := Some pw |}) = [])
    by (apply validate_nil; unfold passes_validation; eauto 10).
  rewrite Hv. reflexivity.
Qed.

Lemma create_invalid f env db :
  ¬ passes_validation f →
  create f env db
  = (inl (ValidationError_message (validate (construct f))), db).
Proof.
  intros Hn. unfold create.
  destruct (validate (construct f)) eqn:Hv; [| reflexivity].
  exfalso. apply Hn, validate_nil, Hv.
Qed.

(** Fields that only the length of the password keeps from passing are
    refused with the message of [minlength] alone. *)
Lemma short_password_refused fn ln e pw env db :
  set_name fn ≠ "" → set_name ln ≠ "" → set_email e ≠ "" →
  (0 < JS.length pw < 5)%nat →
  create {| create_firstName := Some fn; create_lastName := Some ln;
            create_email := Some e; create_password := Some pw |} env db
  = (inl ("User validation failed: password: Path `password` (`" +:+ pw
          +:+ minlength_tail pw 5), db).
Proof.
  intros Tfn Tln Te Hlen. unfold create.
  assert (Hv : validate (construct
            {| create_firstName := Some fn; create_lastName := Some ln;
               create_email := Some e; create_password := Some pw |})
          = [("password",
              "Path `password` (`" +:+ pw +:+ minlength_tail pw 5)]).
  { unfold validate, construct.
    cbn [create_firstName create_lastName create_email create_password
         fmap option_fmap option_map].
    unfold first_error, required, minlength.
    apply JSFacts.truthy_Some in Tfn, Tln, Te. rewrite Tfn, Tln, Te.
    assert (Hp : JS.truthy (Some pw) = true).
    { apply JSFacts.truthy_Some, length_positive. lia. }
    rewrite Hp.
    destruct (Nat.ltb_spec (JS.length pw) 5) as [_ | Hge]; [| lia].
    reflexivity. }
  rewrite Hv. reflexivity.
Qed.

Lemma passes_validation_dec f : passes_validation f ∨ ¬ passes_validation f.
Proof.
  rewrite <- validate_nil. destruct (validate (construct f)); [left | right];
    congruence.
Qed.

(** The collection after [User.create] is the old one, or the old one with
    the new document at its end. *)
Lemma create_inr f env db u db' :
  create f env db = (inr u, db') →
  ∃ fn ln e pw,
    f = {| create_firstName := Some fn; create_lastName := Some ln;
           create_email := Some e; create_password := Some pw |}
    ∧ set_name fn ≠ "" ∧ set_name ln ≠ "" ∧ set_email e ≠ ""
    ∧ (5 ≤ JS.length pw)%nat
    ∧ existsb (λ d', String.eqb (email d') (set_email e)) db = false
    ∧ u = new_doc fn ln e pw env db
    ∧ db' = (db ++ [u])%list.
Proof.
  intros Hc. destruct (passes_validation_dec f) as [Hp | Hn].
  - destruct Hp as (fn & ln & e & pw & -> & Hf & Hl & He & Hm).
    rewrite create_valid in Hc by assumption.
    destruct (existsb _ db) eqn:Hx; [discriminate |].
    inversion Hc; subst. exists fn, ln, e, pw. repeat split; auto.
  - rewrite create_invalid in Hc by assumption. discriminate.
Qed.

Lemma create_inl f env db msg db' :
  create f env db = (inl msg, db') → db' = db.
Proof.
  intros Hc. destruct (passes_validation_dec f) as [Hp | Hn].
  - destruct Hp as (fn & ln & e & pw & -> & Hf & Hl & He & Hm).
    rewrite create_valid in Hc by assumption.
    destruct (existsb _ db); now inversion Hc.
  - rewrite create_invalid in Hc by assumption. now inversion Hc.
Qed.

End Create.

(** ** The collections the API can produce *)

Inductive Endpoint : Type := POST_register | POST_login | GET_me.

Definition handler (ep : Endpoint) : Request → Prog Response :=
  match ep with
  | POST_register => register
  | POST_login => login
  | GET_me => me
  end.

Section Reachable.
Context `{strings : JS.Strings} `{crypto : Crypto} `{driver : Driver}.
Import Mongoose.

(** The collection starts empty and changes only through requests to the
    three endpoints. *)
Inductive reachable : list Doc → Prop :=
| reachable_empty : reachable []
| reachable_request db ep req env out db' :
    reachable db →
    run (handler ep req) env db = (out, db') →
    reachable db'.

(** What the schema guarantees of a stored document: its email went
    through the setters, and its role is the default. *)
Definition stored_ok (d : Doc) : Prop :=
  set_email (email d) = email d ∧ role d = Role_user.

Lemma set_email_idem e : set_email (set_email e) = set_email e.
Proof.
  unfold set_email. apply canonical_email_stable.
Qed.

Lemma new_doc_ok fn ln e pw env db : stored_ok (new_doc fn ln e pw env db).
Proof. split; [apply set_email_idem | reflexivity]. Qed.

(** Every handler answers, and leaves the collection as it was or adds one
    new document at its end. *)
Lemma register_frame req env db :
  ∃ resp db', run (register req) env db = (inr resp, db')
    ∧ (db' = db
       ∨ ∃ fn ln e pw,
           register_fields req
           = {| create_firstName := Some fn; create_lastName := Some ln;
                create_email := Some e; create_password := Some pw |}
           ∧ db' = (db ++ [new_doc fn ln e pw env db])%list
           ∧ resp = success_token 201
                      (token_for (new_doc fn ln e pw env db) env)
                      (new_doc fn ln e pw env db)).
Proof.
  rewrite run_register.
  destruct (findOne (body req !! "email") false db); [eauto |].
  destruct (create (register_fields req) env db) as [[msg | u] db'] eqn:Hc.
  - apply create_inl in Hc. subst. eauto.
  - apply create_inr in Hc.
    destruct Hc as (fn & ln & e & pw & Hf & _ & _ & _ & _ & _ & -> & ->).
    do 2 eexists. split; [reflexivity |]. right. exists fn, ln, e, pw. auto.
Qed.

Lemma login_frame req env db : snd (run (login req) env db) = db.
Proof. now rewrite run_login. Qed.

Lemma me_frame req env db : snd (run (me req) env db) = db.
Proof. now rewrite run_me. Qed.

Lemma reachable_stored_ok db : reachable db → Forall stored_ok db.
Proof.
  induction 1 as [| db ep req env out db' _ IH Hrun]; [constructor |].
  destruct ep; cbn [handler] in Hrun.
  - destruct (register_frame req env db) as (resp & db'' & Hr & Hd).
    rewrite Hr in Hrun. inversion Hrun; subst.
    destruct Hd as [-> | (fn & ln & e & pw & _ & -> & _)]; [exact IH |].
    apply Forall_app. split; [exact IH |].
    constructor; [apply new_doc_ok | constructor].
  - pose proof (login_frame req env db) as Hf. rewrite Hrun in Hf.
    simpl in Hf. now subst.
  - pose proof (me_frame req env db) as Hf. rewrite Hrun in Hf.
    simpl in Hf. now subst.
Qed.

(** [findOne] answers with a stored document that has the email asked for,
    as the setters write it. *)
Lemma findOne_Some e sel db u' :
  findOne (Some e) sel db = Some u' →
  ∃ u, In u db ∧ email u = set_email e ∧ u' = project sel u.
Proof.
  unfold findOne. intros Hf.
  destruct (List.find _ db) as [u |] eqn:Hfind; [| discriminate].
  apply find_some in Hfind. destruct Hfind as [Hin Heq].
  apply String.eqb_eq in Heq. inversion Hf. eauto.
Qed.

Lemma findOne_None e sel db :
  findOne (Some e) sel db = None ↔
  existsb (λ d, String.eqb (email d) (set_email e)) db = false.
Proof.
  unfold findOne. induction db as [| d db IH]; simpl; [tauto |].
  destruct (String.eqb (email d) (set_email e)); simpl; [| exact IH].
  split; discriminate.
Qed.

Lemma findOne_present e sel db u :
  In u db → email u = set_email e → is_Some (findOne (Some e) sel db).
Proof.
  intros Hin Heq. destruct (findOne (Some e) sel db) eqn:Hf; [eauto |].
  apply findOne_None in Hf.
  assert (Hx : existsb (λ d, String.eqb (email d) (set_email e)) db = true).
  { apply existsb_exists. exists u. split; [exact Hin |].
    now apply String.eqb_eq. }
  congruence.
Qed.

(** A document added at the end is found when no earlier one matches. *)
Lemma findOne_app_new e sel db u :
  findOne (Some e) sel db = None →
  email u = set_email e →
  findOne (Some e) sel (db ++ [u]) = Some (project sel u).
Proof.
  unfold findOne. intros Hnone Hemail.
  induction db as [| d db IH]; simpl in *.
  - rewrite Hemail, String.eqb_refl. reflexivity.
  - destruct (String.eqb (email d) (set_email e)); [discriminate |].
    apply IH, Hnone.
Qed.

End Reachable.

(** Goals that are conjunctions of equivalences between facts already
    decided by the hypotheses. *)
Ltac break_hyps :=
  repeat match goal with
         | H : _ ∧ _ |- _ => destruct H
         | H : _ ∨ _ |- _ => destruct H
         | H : ∃ _, _ |- _ => destruct H
         | H : Some _ = Some _ |- _ => injection H as H
         end.

Ltac settle_cases :=
  repeat split; intros; break_hyps; subst;
  try discriminate; try congruence; auto.

(** ** Properties of the three operations *)

Section Claims.
Context `{strings : JS.Strings} `{crypto : Crypto} `{driver : Driver}.
Import Mongoose.

(** C8. Login and me leave the user collection as they found it, for
    every request; registration leaves it as it was or adds one document
    at its end.  No operation changes or removes a stored document. *)
Theorem login_and_me_do_not_write req env db :
  snd (run (login req) env db) = db
  ∧ snd (run (me req) env db) = db
  ∧ (snd (run (register req) env db) = db
     ∨ ∃ u, snd (run (register req) env db) = (db ++ [u])%list).
Proof.
  split; [apply login_frame |]. split; [apply me_frame |].
  destruct (register_frame req env db) as (resp & db' & -> & Hd). simpl.
  destruct Hd as [-> | (fn & ln & e & pw & _ & -> & _)]; eauto.
Qed.

(** C9. Whatever the body of a registration request holds (a [role]
    property included), every document of the collection after it has the
    role [user], and the [user.role] of the response, when there is a
    [user], is the string [user].  The collection is any that requests to
    the API can produce, so the role [admin] is out of reach of the API. *)
Theorem registration_role_is_user db req env resp db' :
  reachable db →
  run (register req) env db = (inr resp, db') →
  Forall (λ u, role u = Role_user) db'
  ∧ ∀ uj, json_get "user" (json_body resp) = Some uj →
          json_get "role" uj = Some (JStr "user").
Proof.
  intros Hreach Hrun. split.
  - assert (Hr' : reachable db')
      by exact (reachable_request db POST_register req env _ db' Hreach Hrun).
    apply reachable_stored_ok in Hr'.
    eapply Forall_impl; [exact Hr' |]. now intros u [_ Hrole].
  - destruct (register_frame req env db) as (resp0 & db0 & Hr0 & Hd).
    rewrite Hr0 in Hrun. inversion Hrun; subst resp0 db0.
    rewrite run_register in Hr0.
    destruct (findOne (body req !! "email") false db).
    { inversion Hr0; subst. intros uj Huj. discriminate. }
    destruct (create (register_fields req) env db) as [[msg | u] d1] eqn:Hc.
    { inversion Hr0; subst. intros uj Huj. discriminate. }
    apply create_inr in Hc.
    destruct Hc as (fn & ln & e & pw & _ & _ & _ & _ & _ & _ & -> & _).
    inversion Hr0; subst. intros uj Huj. cbn in Huj. inversion Huj.
    reflexivity.
Qed.

(** C3. When a document of the collection has the email a registration
    request submits (the email as stored, or any spelling that the setters
    of the schema turn into it, so the one of the first registration too),
    the request is answered with the rejection
    [Email is already registered] (status 400, [success: false]) and the
    collection is unchanged: no second user is created. *)
Theorem register_existing_email_is_refused db u req env e :
  reachable db →
  In u db →
  body req !! "email" = Some e →
  e = email u ∨ JS.trim (JS.toLowerCase e) = email u →
  run (register req) env db
  = (inr (failure 400 "Email is already registered"), db).
Proof.
  intros Hreach Hin Hemail Hsame. rewrite run_register, Hemail.
  assert (Hcanon : email u = set_email e).
  { destruct Hsame as [-> | <-]; [| reflexivity].
    apply reachable_stored_ok in Hreach.
    rewrite List.Forall_forall in Hreach. now destruct (Hreach u Hin). }
  destruct (findOne_present e false db u Hin Hcanon) as [found ->].
  reflexivity.
Qed.

(** C10, as amended. The duplicate check of a registration and the
    document it stores both go by the email lowercased and trimmed, not by
    the email as it was submitted: the registration is answered 400 exactly
    when a stored user has the lowercased, trimmed email (the handler
    passes the submitted string and mongoose casts the filter through the
    setters of the path), and when it is answered 201 the email of the new
    document is the lowercased, trimmed one. *)
Theorem register_checks_and_stores_canonical_email req env db e :
  body req !! "email" = Some e →
  ∃ resp db',
    run (register req) env db = (inr resp, db')
    ∧ (status resp = 400%nat
       ↔ ∃ u, In u db ∧ email u = JS.trim (JS.toLowerCase e))
    ∧ (status resp = 201%nat →
       ∃ u, db' = (db ++ [u])%list
            ∧ email u = JS.trim (JS.toLowerCase e)).
Proof.
  intros He. rewrite run_register, He.
  destruct (findOne (Some e) false db) as [found |] eqn:Hf.
  { apply findOne_Some in Hf. destruct Hf as (u & Hin & Hemail & _).
    do 2 eexists. split; [reflexivity |]. split; [| discriminate].
    split; [intros _; exists u; auto | reflexivity]. }
  assert (Hnobody : ¬ ∃ u, In u db ∧ email u = JS.trim (JS.toLowerCase e)).
  { intros (u & Hin & Hemail).
    destruct (findOne_present e false db u Hin Hemail) as [found Hfound].
    congruence. }
  destruct (create (register_fields req) env db) as [[msg | u] d1] eqn:Hc.
  { do 2 eexists. split; [reflexivity |]. split; [| discriminate].
    split; [discriminate | intros H; now destruct Hnobody]. }
  apply create_inr in Hc.
  destruct Hc as (fn & ln & e' & pw & Hfields & _ & _ & _ & _ & _ & -> & ->).
  unfold register_fields in Hfields. rewrite He in Hfields.
  injection Hfields as _ _ <- _.
  do 2 eexists. split; [reflexivity |]. split.
  - split; [discriminate | intros H; now destruct Hnobody].
  - intros _. eexists. split; reflexivity.
Qed.

(** A successful login answers with the token of a stored document that
    has the email asked for. *)
Lemma login_success req env db resp :
  run (login req) env db = (inr resp, db) →
  status resp = 200%nat →
  ∃ e u, body req !! "email" = Some e ∧ In u db ∧ email u = set_email e
         ∧ resp = success_token 200 (token_for u env) u.
Proof.
  rewrite run_login. intros [= Hresp] Hst.
  destruct (negb (JS.truthy (body req !! "email"))
            || negb (JS.truthy (body req !! "password"))) eqn:Hmiss.
  { subst. discriminate. }
  destruct (body req !! "email") as [e |] eqn:He; [| discriminate].
  destruct (findOne (Some e) true db) as [u' |] eqn:Hf.
  2: { subst. discriminate. }
  apply findOne_Some in Hf. destruct Hf as (u & Hin & Hemail & ->).
  cbn [project] in Hresp.
  destruct (body req !! "password") as [s |], (password u) as [h |];
    try (subst; discriminate).
  destruct (bcrypt_compare s h); [| subst; discriminate].
  exists e, u. auto.
Qed.

(** C2. The token of a successful login is [jwt.sign] of the id and the
    role of the stored user whose email the request gave, under the server
    secret, with an expiry of 30 days: it verifies to that id and role until 30 days
    after the login and is refused as expired from then on.  And a login
    with the email and password of a successful registration succeeds,
    with a token that verifies to the id registration stored. *)
Theorem login_token_round_trip :
  (∀ req env db resp,
     run (login req) env db = (inr resp, db) →
     status resp = 200%nat →
     ∃ e u token,
       body req !! "email" = Some e
       ∧ In u db
       ∧ email u = JS.trim (JS.toLowerCase e)
       ∧ json_get "user" (json_body resp) = Some (public_user u)
       ∧ json_get "token" (json_body resp) = Some (JStr token)
       ∧ token = jwt_sign {| payload_id := _id u; payload_role := role u |}
                   JWT_SECRET (30 * 24 * 60 * 60) (now env)
       ∧ (∀ t, t < now env + 30 * 24 * 60 * 60 →
               jwt_verify token JWT_SECRET t
               = inr {| decoded_id := _id u; decoded_role := role u;
                        decoded_iat := now env;
                        decoded_exp := now env + 30 * 24 * 60 * 60 |})
       ∧ (∀ t, now env + 30 * 24 * 60 * 60 ≤ t →
               jwt_verify token JWT_SECRET t = inl "jwt expired"))
  ∧ (∀ req env db resp db' req' env',
       run (register req) env db = (inr resp, db') →
       status resp = 201%nat →
       body req' !! "email" = body req !! "email" →
       body req' !! "password" = body req !! "password" →
       ∃ u token,
         db' = (db ++ [u])%list
         ∧ run (login req') env' db'
           = (inr (success_token 200 token u), db')
         ∧ ∀ t, t < now env' + 30 * 24 * 60 * 60 →
                jwt_verify token JWT_SECRET t
                = inr {| decoded_id := _id u; decoded_role := role u;
                         decoded_iat := now env';
                         decoded_exp := now env' + 30 * 24 * 60 * 60 |}).
Proof.
  split.
  - intros req env db resp Hrun Hst.
    destruct (login_success req env db resp Hrun Hst)
      as (e & u & He & Hin & Hemail & ->).
    exists e, u, (token_for u env). split; [exact He |].
    split; [exact Hin |]. split; [exact Hemail |].
    split; [reflexivity |]. split; [reflexivity |]. split; [reflexivity |].
    split; intros t Ht.
    + apply jwt_verify_sign. exact Ht.
    + apply jwt_verify_expired. exact Ht.
  - intros req env db resp db' req' env' Hrun Hst Hemail Hpw.
    rewrite run_register in Hrun.
    destruct (findOne (body req !! "email") false db) eqn:Hnone.
    { inversion Hrun; subst. discriminate. }
    destruct (create (register_fields req) env db) as [[msg | u] d1] eqn:Hc.
    { inversion Hrun; subst. discriminate. }
    apply create_inr in Hc.
    destruct Hc as (fn & ln & e & pw & Hf & _ & _ & He & Hlen & Hdup & Hu & ->).
    inversion Hrun; subst resp db'. clear Hrun.
    unfold register_fields in Hf. inversion Hf as [[Hfn Hln Hem Hpass]].
    exists u, (token_for u env'). split; [reflexivity |].
    split.
    + rewrite run_login, Hemail, Hpw, Hem, Hpass.
      assert (He' : JS.truthy (Some e) = true).
      { apply JSFacts.truthy_Some. intros ->. apply He, set_email_empty. }
      assert (Hp' : JS.truthy (Some pw) = true).
      { apply JSFacts.truthy_Some. intros ->.
        rewrite length_empty in Hlen. lia. }
      rewrite He', Hp'. cbn [negb orb].
      assert (Hfind : findOne (Some e) true (db ++ [u]) = Some u).
      { apply findOne_app_new; [apply findOne_None, Hdup | now subst u]. }
      rewrite Hfind. subst u. cbn [password new_doc].
      now rewrite bcrypt_compare_hash.
    + intros t Ht. apply jwt_verify_sign. exact Ht.
Qed.

(** C4, as amended. Login answers every request and writes nothing.  It
    answers 400 exactly when the email or the password is absent or empty;
    it answers 401 exactly when both are given and either no stored user
    has the email or [bcrypt.compare] of the password with the stored hash
    is false.  Neither rejection carries a token. *)
Theorem login_rejections req env db :
  ∃ resp,
    run (login req) env db = (inr resp, db)
    ∧ (status resp = 400%nat
       ↔ JS.truthy (body req !! "email") = false
         ∨ JS.truthy (body req !! "password") = false)
    ∧ (status resp = 401%nat
       ↔ JS.truthy (body req !! "email") = true
         ∧ JS.truthy (body req !! "password") = true
         ∧ (findOne (body req !! "email") true db = None
            ∨ ∃ u s h,
                findOne (body req !! "email") true db = Some u
                ∧ body req !! "password" = Some s
                ∧ password u = Some h
                ∧ bcrypt_compare s h = false))
    ∧ (status resp = 400%nat ∨ status resp = 401%nat →
       json_get "success" (json_body resp) = Some (JBool false)
       ∧ json_get "token" (json_body resp) = None).
Proof.
  rewrite run_login. eexists. split; [reflexivity |].
  destruct (JS.truthy (body req !! "email")) eqn:He;
    destruct (JS.truthy (body req !! "password")) eqn:Hp; cbn [negb orb].
  2-4: cbn; settle_cases.
  destruct (findOne (body req !! "email") true db) as [u |] eqn:Hf.
  2: cbn; settle_cases.
  destruct (body req !! "password") as [s |] eqn:Hs; [| discriminate].
  destruct (password u) as [h |] eqn:Hh.
  2: cbn; settle_cases.
  destruct (bcrypt_compare s h) eqn:Hc; cbn; settle_cases.
  right. exists u, s, h. auto.
Qed.

(** C5, as amended. Me answers every request and writes nothing.  Without
    a second word in the authorization header it answers 401; with a token
    that [jwt.verify] refuses (bad signature, malformed, expired) it
    answers 500 with the verifier's message; with a token that verifies
    but names no stored user it answers 404; otherwise it answers 200 with
    the public fields of the user the token names.  A token that login
    issued is refused as expired from 30 days after the login on.  Only
    the 200 answer has a [user]. *)
Theorem me_outcomes req env db :
  ∃ resp,
    run (me req) env db = (inr resp, db)
    ∧ (JS.truthy (bearer_token req) = false →
       resp = failure 401 "Not authorized to access this route")
    ∧ (∀ t msg,
         bearer_token req = Some t → t ≠ "" →
         jwt_verify t JWT_SECRET (now env) = inl msg →
         resp = error_500 msg)
    ∧ (∀ t u env0,
         bearer_token req = Some t → t ≠ "" →
         t = token_for u env0 → now env0 + days 30 ≤ now env →
         resp = error_500 "jwt expired")
    ∧ (∀ t decoded,
         bearer_token req = Some t → t ≠ "" →
         jwt_verify t JWT_SECRET (now env) = inr decoded →
         resp = match List.find (λ d, _id d =? decoded_id decoded) db with
                | None => failure 404 "User not found"
                | Some u => success_user u
                end)
    ∧ (status resp ≠ 200%nat → json_get "user" (json_body resp) = None).
Proof.
  rewrite run_me. eexists. split; [reflexivity |].
  destruct (bearer_token req) as [t |] eqn:Ht.
  2: cbn; settle_cases.
  destruct (JS.truthy (Some t)) eqn:Htr; cbn [negb].
  2: { apply JSFacts.truthy_false in Htr.
       destruct Htr as [? | [= ->]]; [discriminate |]. settle_cases. }
  assert (Hexp : ∀ u env0, now env0 + days 30 ≤ now env →
                 jwt_verify (token_for u env0) JWT_SECRET (now env)
                 = inl "jwt expired")
    by (intros; now apply jwt_verify_expired).
  destruct (jwt_verify t JWT_SECRET (now env)) as [msg | decoded] eqn:Hv.
  { settle_cases.
    match goal with Hle : N.le _ _ |- _ => rewrite Hexp in Hv by exact Hle end.
    congruence. }
  split; [discriminate |]. split; [intros; congruence |].
  split.
  { intros t0 u env0 [= <-] _ -> Hle. rewrite Hexp in Hv by exact Hle.
    discriminate. }
  split.
  { intros t0 decoded0 [= <-] _ Hv0. rewrite Hv in Hv0.
    injection Hv0 as <-. unfold findById.
    destruct (List.find (λ d, _id d =? decoded_id decoded) db); reflexivity. }
  destruct (findById (decoded_id decoded) db); cbn; congruence.
Qed.

Lemma email_free db e :
  Forall (λ d, email d ≠ set_email e) db →
  existsb (λ d, String.eqb (email d) (set_email e)) db = false.
Proof.
  induction 1 as [| d db Hd _ IH]; simpl; [reflexivity |].
  rewrite IH, orb_false_r. now apply String.eqb_neq.
Qed.

(** C6, as amended. A registration whose email no stored user has and
    whose fields pass the validators of the schema (first name, last name
    and email given and not blank, password of five characters or more)
    adds one user to the collection.  The stored password is the bcrypt
    hash of the submitted one with 10 rounds; the names are trimmed, the
    email lowercased and trimmed, the role is [user].  The response is 201
    with [success: true], the token signed for the new user and a [user]
    object with exactly [id], [firstName], [lastName], [email] and
    [role]. *)
Theorem register_persists_hashed_user req env db fn ln e pw :
  body req !! "firstName" = Some fn →
  body req !! "lastName" = Some ln →
  body req !! "email" = Some e →
  body req !! "password" = Some pw →
  Forall (λ d, email d ≠ JS.trim (JS.toLowerCase e)) db →
  JS.trim fn ≠ "" → JS.trim ln ≠ "" → JS.trim (JS.toLowerCase e) ≠ "" →
  (5 ≤ JS.length pw)%nat →
  ∃ u token,
    run (register req) env db
    = (inr {| status := 201;
              json_body :=
                JObj [("success", JBool true);
                      ("token", JStr token);
                      ("user",
                       JObj [("id", JStr (toHexString (_id u)));
                             ("firstName", JStr (firstName u));
                             ("lastName", JStr (lastName u));
                             ("email", JStr (email u));
                             ("role", JStr "user")])] |},
       (db ++ [u])%list)
    ∧ password u = Some (bcrypt_hash pw 10 (salt env))
    ∧ firstName u = JS.trim fn
    ∧ lastName u = JS.trim ln
    ∧ email u = JS.trim (JS.toLowerCase e)
    ∧ role u = Role_user
    ∧ token = jwt_sign {| payload_id := _id u; payload_role := role u |}
                JWT_SECRET (30 * 24 * 60 * 60) (now env).
Proof.
  intros Hfn Hln He Hpw Hfree Tfn Tln Te Hlen.
  exists (new_doc fn ln e pw env db), (token_for (new_doc fn ln e pw env db) env).
  split; [| repeat split].
  rewrite run_register, He.
  pose proof (email_free db e Hfree) as Hx.
  apply findOne_None with (sel := false) in Hx. rewrite Hx.
  unfold register_fields. rewrite Hfn, Hln, He, Hpw.
  rewrite create_valid by assumption.
  rewrite (email_free db e Hfree). reflexivity.
Qed.

(** The envelope of a response body: an object with a boolean [success]
    whose other properties are among [others]. *)
Definition envelope (others : list string) (j : json) : Prop :=
  (∃ b, json_get "success" j = Some (JBool b))
  ∧ ∀ k, In k (json_keys j) → k = "success" ∨ In k others.

Ltac settle_envelope :=
  cbn; split;
  [ split;
    [ eexists; reflexivity
    | cbn; intros k Hk;
      repeat (destruct Hk as [<- | Hk]; [auto 10 |]); contradiction ]
  | cbn; split; intros; break_hyps; try discriminate; try contradiction;
    auto 10 ].

(** C7, as amended. Every response of the three endpoints is an object
    with a boolean [success] whose other properties are among [token],
    [user], [message] and [error]; [error] is there exactly in the 500
    responses of the catch branches. *)
Theorem responses_fit_envelope ep req env db :
  ∃ resp db',
    run (handler ep req) env db = (inr resp, db')
    ∧ envelope ["token"; "user"; "message"; "error"] (json_body resp)
    ∧ (In "error" (json_keys (json_body resp)) ↔ status resp = 500%nat).
Proof.
  destruct ep; cbn [handler].
  - rewrite run_register.
    destruct (findOne (body req !! "email") false db).
    { do 2 eexists. split; [reflexivity |]. settle_envelope. }
    destruct (create (register_fields req) env db) as [[msg | u] d1].
    all: do 2 eexists; (split; [reflexivity |]); settle_envelope.
  - rewrite run_login. do 2 eexists. split; [reflexivity |].
    destruct (negb (JS.truthy (body req !! "email"))
              || negb (JS.truthy (body req !! "password")));
      [settle_envelope |].
    destruct (findOne (body req !! "email") true db) as [u |];
      [| settle_envelope].
    destruct (body req !! "password"), (password u); try settle_envelope.
    destruct (bcrypt_compare _ _); settle_envelope.
  - rewrite run_me. do 2 eexists. split; [reflexivity |].
    destruct (negb (JS.truthy (bearer_token req))); [settle_envelope |].
    destruct (bearer_token req) as [t |]; [| settle_envelope].
    destruct (jwt_verify t JWT_SECRET (now env)); [settle_envelope |].
    destruct (findById _ db); settle_envelope.
Qed.

(** The success responses read the public paths of the document only: they
    are the same for the document without its password. *)
Lemma success_bodies_ignore_password code u env :
  success_token code (token_for u env) u
  = success_token code (token_for (deselect_password u) env)
      (deselect_password u)
  ∧ success_user u = success_user (deselect_password u).
Proof. split; reflexivity. Qed.

(** Whether a string occurs inside some string value of a JSON document. *)
Definition mentions (needle : string) (j : json) : Prop :=
  ∃ s, In s (json_strings j) ∧ JS.includes s needle = true.

(** A registration with a password of four characters. *)
Definition short_password_request : Request :=
  {| body := list_to_map [("firstName", "Ada"); ("lastName", "Lovelace");
                          ("email", "ada@example.com"); ("password", "pa55")];
     authorization := None |}.

(** C1, at a failing input. The password of [short_password_request] is
    refused by [minlength: 5]; the catch branch of register sends the
    message of the validation error, and the message quotes the
    password, whatever the version of mongoose writes after it. *)
Theorem register_echoes_short_password env :
  ∃ resp,
    run (register short_password_request) env [] = (inr resp, [])
    ∧ status resp = 500%nat
    ∧ json_get "error" (json_body resp)
      = Some (JStr ("User validation failed: password: Path `password` "
                    +:+ "(`pa55" +:+ minlength_tail "pa55" 5))
    ∧ body short_password_request !! "password" = Some "pa55"
    ∧ mentions "pa55" (json_body resp).
Proof.
  assert (Hc : create (register_fields short_password_request) env []
               = (inl ("User validation failed: password: Path `password` "
                       +:+ "(`pa55" +:+ minlength_tail "pa55" 5), [])).
  { apply (short_password_refused "Ada" "Lovelace" "ada@example.com" "pa55");
      unfold set_name, set_email; on_ascii; try discriminate.
    simpl. lia. }
  eexists. split.
  { rewrite run_register.
    change (body short_password_request !! "email")
      with (Some "ada@example.com").
    change (findOne (Some "ada@example.com") false []) with (@None Doc).
    rewrite Hc. reflexivity. }
  split; [reflexivity |]. split; [reflexivity |]. split; [reflexivity |].
  eexists. split; [right; left; reflexivity |].
  exact (JSMore.includes_app
           "User validation failed: password: Path `password` (`" "pa55"
           (minlength_tail "pa55" 5)).
Qed.

(** *** Five statements above, as the specification words them *)

(** Login answers 401 exactly when the email is missing, the password is
    missing, no user has the email, or the comparison fails. *)
Definition spec_login_unauthorized (req : Request) (env : Env)
    (db : list Doc) : Prop :=
  ∀ resp,
    run (login req) env db = (inr resp, db) →
    (status resp = 401%nat
     ↔ body req !! "email" = None
       ∨ body req !! "password" = None
       ∨ findOne (body req !! "email") true db = None
       ∨ ∃ u s h,
           findOne (body req !! "email") true db = Some u
           ∧ body req !! "password" = Some s
           ∧ password u = Some h
           ∧ bcrypt_compare s h = false).

(** Me answers a token that does not verify with 401 or 404. *)
Definition spec_me_rejects (req : Request) (env : Env) (db : list Doc)
  : Prop :=
  ∀ resp t msg,
    run (me req) env db = (inr resp, db) →
    bearer_token req = Some t →
    jwt_verify t JWT_SECRET (now env) = inl msg →
    status resp = 401%nat ∨ status resp = 404%nat.

(** A registration whose email no stored user has is answered with 201
    and adds a user. *)
Definition spec_register_succeeds (req : Request) (env : Env)
    (db : list Doc) : Prop :=
  findOne (body req !! "email") false db = None →
  ∃ resp u,
    run (register req) env db = (inr resp, (db ++ [u])%list)
    ∧ status resp = 201%nat.

(** The duplicate check of register goes by the email as submitted: the
    registration is refused as a duplicate exactly when a stored user has
    that very string for its email. *)
Definition spec_duplicate_check_on_raw_email (req : Request) (env : Env)
    (db : list Doc) : Prop :=
  ∀ e resp db',
    body req !! "email" = Some e →
    run (register req) env db = (inr resp, db') →
    (status resp = 400%nat ↔ ∃ u, In u db ∧ email u = e).

(** Every response has a boolean [success] and otherwise only [token],
    [user] and [message]. *)
Definition spec_envelope (ep : Endpoint) (req : Request) (env : Env)
    (db : list Doc) : Prop :=
  ∀ resp db',
    run (handler ep req) env db = (inr resp, db') →
    envelope ["token"; "user"; "message"] (json_body resp).

End Claims.

(** ** The handlers run on concrete requests *)

Section Runs.
#[local] Existing Instance JSFacts.latin1_strings.
#[local] Existing Instance ToyFacts.crypto.
#[local] Existing Instance ToyFacts.driver.
Import Mongoose.

Definition env_at (t : N) : Env := {| now := t; salt := "NaCl" |}.

(** A registration that passes validation; its body also asks for the
    role [admin]. *)
Definition ada_request : Request :=
  {| body := list_to_map [("firstName", " Ada"); ("lastName", "Lovelace");
                          ("email", " Ada@Example.COM ");
                          ("password", "correct horse");
                          ("role", "admin")];
     authorization := None |}.

(** The document and the response of that registration, at time 1000 in
    the empty collection. *)
Definition ada : Doc :=
  {| _id := 1; firstName := "Ada"; lastName := "Lovelace";
     email := "ada@example.com";
     password := Some (Toy.hash "correct horse" 10 "NaCl");
     role := Role_user; createdAt := 1000; updatedAt := 1000 |}.

Definition ada_registered : Response :=
  success_token 201 (token_for ada (env_at 1000)) ada.

Lemma ada_registration :
  run (register ada_request) (env_at 1000) [] = (inr ada_registered, [ada]).
Proof. vm_compute. reflexivity. Qed.

Lemma ada_reachable : reachable [ada].
Proof.
  exact (reachable_request [] POST_register ada_request (env_at 1000) _ _
           reachable_empty ada_registration).
Qed.

(** Ada logs in a day later. *)
Definition ada_login : Request :=
  {| body := list_to_map [("email", " Ada@Example.COM ");
                          ("password", "correct horse")];
     authorization := None |}.

(** The same email, as stored, in a second registration. *)
Definition ada_again : Request :=
  {| body := list_to_map [("firstName", "Augusta"); ("lastName", "King");
                          ("email", "ada@example.com");
                          ("password", "another one")];
     authorization := None |}.

(** A login with a wrong password, and one with an empty body. *)
Definition ada_wrong_password : Request :=
  {| body := list_to_map [("email", "ada@example.com");
                          ("password", "correct house")];
     authorization := None |}.

Definition empty_request : Request :=
  {| body := ∅; authorization := None |}.

(** The token of Ada's login at time 2000, presented to me. *)
Definition ada_token : string := token_for ada (env_at 2000).

Definition ada_me : Request :=
  {| body := ∅; authorization := Some ("Bearer " +:+ ada_token) |}.

(** A token for Ada's id with the role [admin], signed with another
    secret. *)
Definition forged_token : string :=
  Toy.sign {| payload_id := 1; payload_role := Role_admin |}
    "not the server secret" (days 30) 2000.

Definition forged_me : Request :=
  {| body := ∅; authorization := Some ("Bearer " +:+ forged_token) |}.

Lemma register_existing_email_is_refused_witness :
  reachable [ada]
  ∧ In ada [ada]
  ∧ body ada_again !! "email" = Some "ada@example.com"
  ∧ ("ada@example.com" = email ada
     ∨ JS.trim (JS.toLowerCase "ada@example.com") = email ada)
  ∧ run (register ada_again) (env_at 2000) [ada]
    = (inr (failure 400 "Email is already registered"), [ada]).
Proof.
  assert (Hin : In ada [ada]) by (left; reflexivity).
  assert (He : body ada_again !! "email" = Some "ada@example.com")
    by reflexivity.
  assert (Hsame : "ada@example.com" = email ada
                  ∨ JS.trim (JS.toLowerCase "ada@example.com") = email ada)
    by (left; reflexivity).
  split; [exact ada_reachable |]. split; [exact Hin |].
  split; [exact He |]. split; [exact Hsame |].
  exact (register_existing_email_is_refused [ada] ada ada_again (env_at 2000)
           "ada@example.com" ada_reachable Hin He Hsame).
Defined.

(** The first registration, sent a second time as it was. *)
Example ada_registers_twice :
  run (register ada_request) (env_at 2000) [ada]
  = (inr (failure 400 "Email is already registered"), [ada]).
Proof. vm_compute. reflexivity. Qed.

Lemma registration_role_is_user_witness :
  reachable []
  ∧ run (register ada_request) (env_at 1000) [] = (inr ada_registered, [ada])
  ∧ body ada_request !! "role" = Some "admin"
  ∧ Forall (λ u, role u = Role_user) [ada]
  ∧ ∀ uj, json_get "user" (json_body ada_registered) = Some uj →
          json_get "role" uj = Some (JStr "user").
Proof.
  split; [exact reachable_empty |]. split; [exact ada_registration |].
  split; [reflexivity |].
  exact (registration_role_is_user [] ada_request (env_at 1000)
           ada_registered [ada] reachable_empty ada_registration).
Defined.

Lemma register_checks_and_stores_canonical_email_witness :
  body ada_request !! "email" = Some " Ada@Example.COM "
  ∧ ∃ resp db',
      run (register ada_request) (env_at 1000) [] = (inr resp, db')
      ∧ (status resp = 400%nat
         ↔ ∃ u, In u [] ∧ email u = JS.trim (JS.toLowerCase " Ada@Example.COM "))
      ∧ (status resp = 201%nat →
         ∃ u, db' = ([] ++ [u])%list
              ∧ email u = JS.trim (JS.toLowerCase " Ada@Example.COM ")).
Proof.
  split; [reflexivity |].
  exact (register_checks_and_stores_canonical_email ada_request (env_at 1000)
           [] " Ada@Example.COM " eq_refl).
Defined.

Lemma login_token_round_trip_witness :
  run (register ada_request) (env_at 1000) [] = (inr ada_registered, [ada])
  ∧ status ada_registered = 201%nat
  ∧ body ada_login !! "email" = body ada_request !! "email"
  ∧ body ada_login !! "password" = body ada_request !! "password"
  ∧ ∃ u token,
      [ada] = ([] ++ [u])%list
      ∧ run (login ada_login) (env_at 87400) [ada]
        = (inr (success_token 200 token u), [ada])
      ∧ ∀ t, t < now (env_at 87400) + 30 * 24 * 60 * 60 →
             jwt_verify token JWT_SECRET t
             = inr {| decoded_id := _id u; decoded_role := role u;
                      decoded_iat := now (env_at 87400);
                      decoded_exp := now (env_at 87400) + 30 * 24 * 60 * 60 |}.
Proof.
  split; [exact ada_registration |]. split; [reflexivity |].
  split; [reflexivity |]. split; [reflexivity |].
  exact (proj2 login_token_round_trip ada_request (env_at 1000) []
           ada_registered [ada] ada_login (env_at 87400)
           ada_registration eq_refl eq_refl eq_refl).
Defined.

Lemma register_persists_hashed_user_witness :
  body ada_request !! "firstName" = Some " Ada"
  ∧ body ada_request !! "lastName" = Some "Lovelace"
  ∧ body ada_request !! "email" = Some " Ada@Example.COM "
  ∧ body ada_request !! "password" = Some "correct horse"
  ∧ JS.trim " Ada" = "Ada"
  ∧ JS.trim (JS.toLowerCase " Ada@Example.COM ") = "ada@example.com"
  ∧ ∃ u token,
      run (register ada_request) (env_at 1000) []
      = (inr {| status := 201;
                json_body :=
                  JObj [("success", JBool true);
                        ("token", JStr token);
                        ("user",
                         JObj [("id", JStr (toHexString (_id u)));
                               ("firstName", JStr (firstName u));
                               ("lastName", JStr (lastName u));
                               ("email", JStr (email u));
                               ("role", JStr "user")])] |},
         ([] ++ [u])%list)
      ∧ password u = Some (bcrypt_hash "correct horse" 10 (salt (env_at 1000)))
      ∧ firstName u = JS.trim " Ada"
      ∧ lastName u = JS.trim "Lovelace"
      ∧ email u = JS.trim (JS.toLowerCase " Ada@Example.COM ")
      ∧ role u = Role_user
      ∧ token = jwt_sign {| payload_id := _id u; payload_role := role u |}
                  JWT_SECRET (30 * 24 * 60 * 60) (now (env_at 1000)).
Proof.
  do 6 (split; [reflexivity |]).
  apply (register_persists_hashed_user ada_request (env_at 1000) []
           " Ada" "Lovelace" " Ada@Example.COM " "correct horse");
    try reflexivity; try discriminate.
  - constructor.
  - simpl. lia.
Defined.

Lemma login_rejections_witness :
  ∃ resp,
    run (login ada_wrong_password) (env_at 2000) [ada] = (inr resp, [ada])
    ∧ status resp = 401%nat
    ∧ json_get "token" (json_body resp) = None.
Proof.
  destruct (login_rejections ada_wrong_password (env_at 2000) [ada])
    as (resp & Hrun & _ & H401 & Hno).
  assert (Hst : status resp = 401%nat).
  { apply H401. split; [reflexivity |]. split; [reflexivity |].
    right. exists ada, "correct house", (Toy.hash "correct horse" 10 "NaCl").
    repeat split; reflexivity. }
  exists resp. split; [exact Hrun |]. split; [exact Hst |].
  apply Hno. right. exact Hst.
Defined.

Lemma me_outcomes_witness :
  ∃ resp,
    run (me ada_me) (env_at 3000) [ada] = (inr resp, [ada])
    ∧ bearer_token ada_me = Some ada_token
    ∧ resp = success_user ada.
Proof.
  destruct (me_outcomes ada_me (env_at 3000) [ada])
    as (resp & Hrun & _ & _ & _ & Hok & _).
  exists resp. split; [exact Hrun |]. split; [vm_compute; reflexivity |].
  apply (Hok ada_token
           {| decoded_id := 1; decoded_role := Role_user;
              decoded_iat := 2000; decoded_exp := 2000 + days 30 |}).
  - vm_compute. reflexivity.
  - vm_compute. discriminate.
  - vm_compute. reflexivity.
Defined.

(** C10, as the specification words it, fails: the first registration,
    sent again with the email spelled as before, is refused as a duplicate
    although no stored user has that spelling for its email. *)
Lemma duplicate_check_is_not_on_raw_email :
  ¬ spec_duplicate_check_on_raw_email ada_request (env_at 2000) [ada].
Proof.
  intros Hspec.
  assert (Hrun : run (register ada_request) (env_at 2000) [ada]
                 = (inr (failure 400 "Email is already registered"), [ada]))
    by (vm_compute; reflexivity).
  destruct (Hspec " Ada@Example.COM " _ _ eq_refl Hrun) as [Hraw _].
  destruct (Hraw eq_refl) as (u & [<- | []] & Hemail).
  discriminate Hemail.
Qed.

(** The message of a password that is too short, in the wording of
    mongoose up to 8.17. *)
Example short_password_error_up_to_8_17 :
  run (register short_password_request) (env_at 1000) []
  = (inr (error_500
            ("User validation failed: password: Path `password` (`pa55`) "
             +:+ "is shorter than the minimum allowed length (5).")), []).
Proof. vm_compute. reflexivity. Qed.

(** C4, as the specification words it, fails: a login without email and
    password is answered 400, not 401. *)
Lemma login_without_fields_is_not_401 :
  ¬ spec_login_unauthorized empty_request (env_at 2000) [ada].
Proof.
  intros Hspec.
  assert (Hrun : run (login empty_request) (env_at 2000) [ada]
                 = (inr (failure 400 "Please provide email and password"),
                    [ada]))
    by (vm_compute; reflexivity).
  apply Hspec in Hrun. destruct Hrun as [_ H401].
  assert (Habs : status (failure 400 "Please provide email and password")
                 = 401%nat) by (apply H401; left; reflexivity).
  discriminate Habs.
Qed.

(** C5, as the specification words it, fails: a token signed with another
    secret is answered 500, not 401 or 404. *)
Lemma me_forged_token_is_500 :
  ¬ spec_me_rejects forged_me (env_at 3000) [ada].
Proof.
  intros Hspec.
  assert (Hrun : run (me forged_me) (env_at 3000) [ada]
                 = (inr (error_500 "invalid signature"), [ada]))
    by (vm_compute; reflexivity).
  assert (Htok : bearer_token forged_me = Some forged_token)
    by (vm_compute; reflexivity).
  assert (Hv : jwt_verify forged_token JWT_SECRET (now (env_at 3000))
               = inl "invalid signature") by (vm_compute; reflexivity).
  destruct (Hspec _ _ _ Hrun Htok Hv) as [Habs | Habs]; discriminate Habs.
Qed.

(** C6, as the specification words it, fails: a registration whose email
    is free but whose password is too short adds no user. *)
Lemma register_short_password_adds_nobody :
  ¬ spec_register_succeeds short_password_request (env_at 1000) [].
Proof.
  intros Hspec. destruct Hspec as (resp & u & Hrun & _); [reflexivity |].
  assert (Hdb : snd (run (register short_password_request) (env_at 1000) [])
                = []) by (vm_compute; reflexivity).
  rewrite Hrun in Hdb. discriminate Hdb.
Qed.

(** C7, as the specification words it, fails: the 500 response of the
    register handler has an [error] property. *)
Lemma register_error_response_leaves_envelope :
  ¬ spec_envelope POST_register short_password_request (env_at 1000) [].
Proof.
  intros Hspec.
  assert (Hrun : run (handler POST_register short_password_request)
                   (env_at 1000) []
                 = (inr (error_500
                           ("User validation failed: password: Path "
                            +:+ "`password` (`pa55`) is shorter than the "
                            +:+ "minimum allowed length (5).")), []))
    by (vm_compute; reflexivity).
  destruct (Hspec _ _ Hrun) as [_ Hkeys].
  destruct (Hkeys "error") as [Habs | Habs].
  - cbn. auto.
  - discriminate Habs.
  - cbn in Habs. repeat (destruct Habs as [Habs | Habs]; [discriminate |]).
    exact Habs.
Qed.

(** A registration without an email, under the two readings of a filter on
    [undefined]: the duplicate check finds nobody and validation refuses
    the fields, or it finds the first stored user. *)
Example register_without_email_filter_as_null :
  @run JSFacts.latin1_strings ToyFacts.crypto
    {| undefined_filter_matches_any := false;
       minlength_tail := ToyFacts.tail_8_17 |} _
    (register empty_request) (env_at 2000) [ada]
  = (inr (error_500
            ("User validation failed: "
             +:+ "firstName: Please provide your first name, "
             +:+ "lastName: Please provide your last name, "
             +:+ "email: Please provide your email, "
             +:+ "password: Please provide a password")), [ada]).
Proof. vm_compute. reflexivity. Qed.

Example register_without_email_filter_dropped :
  @run JSFacts.latin1_strings ToyFacts.crypto
    {| undefined_filter_matches_any := true;
       minlength_tail := ToyFacts.tail_8_17 |} _
    (register empty_request) (env_at 2000) [ada]
  = (inr (failure 400 "Email is already registered"), [ada]).
Proof. vm_compute. reflexivity. Qed.

(** Spellings outside ASCII: a first name that is a no-break space is
    blank; an email with a no-break space before it, or with an accented
    capital, is the email without the space, in small letters. *)
Example register_no_break_space_name :
  run (register
    {| body := list_to_map [("firstName", String JSFacts.nbsp "");
                            ("lastName", "Lovelace");
                            ("email", "ada@example.com");
                            ("password", "correct horse")];
       authorization := None |}) (env_at 1000) []
  = (inr (error_500 ("User validation failed: "
                     +:+ "firstName: Please provide your first name")), []).
Proof. vm_compute. reflexivity. Qed.

Example register_no_break_space_email :
  run (register
    {| body := list_to_map [("firstName", "Augusta"); ("lastName", "King");
                            ("email", String JSFacts.nbsp "ada@example.com");
                            ("password", "another one")];
       authorization := None |}) (env_at 2000) [ada]
  = (inr (failure 400 "Email is already registered"), [ada]).
Proof. vm_compute. reflexivity. Qed.

Example login_no_break_space_email :
  run (login
    {| body := list_to_map [("email", String JSFacts.nbsp "ada@example.com");
                            ("password", "correct horse")];
       authorization := None |}) (env_at 2000) [ada]
  = (inr (success_token 200 (token_for ada (env_at 2000)) ada), [ada]).
Proof. vm_compute. reflexivity. Qed.

Example register_accented_capital_email :
  email <$> snd (run (register
    {| body := list_to_map [("firstName", "Ada"); ("lastName", "Lovelace");
                            ("email", String JSFacts.A_grave "DA@X.COM");
                            ("password", "correct horse")];
       authorization := None |}) (env_at 1000) [])
  = [String (ascii_of_N 224) "da@x.com"].
Proof. vm_compute. reflexivity. Qed.

End Runs.

(** * More of the server: invariants of the collection, tokens across
    requests, the authorization header, and the status codes *)

(** ** Definitions *)

Section MoreDefinitions.
Context `{strings : JS.Strings} `{crypto : Crypto} `{driver : Driver}.
Import Mongoose.

(** [db'] is what [db] can become through further requests. *)
Inductive later : list Doc → list Doc → Prop :=
| later_now db : later db db
| later_request db db1 ep req env out db2 :
    later db db1 →
    run (handler ep req) env db1 = (out, db2) →
    later db db2.

(** What the schema and the hook guarantee of a stored document: trimmed
    names that are not empty; an email that is not empty and that
    lowercasing and trimming leave alone; a password that is the bcrypt
    hash, with 10 rounds, of a string of five characters or more; time
    stamps that agree, since nothing updates a document. *)
Definition well_formed (d : Doc) : Prop :=
  firstName d ≠ "" ∧ JS.trim (firstName d) = firstName d
  ∧ lastName d ≠ "" ∧ JS.trim (lastName d) = lastName d
  ∧ email d ≠ "" ∧ JS.trim (email d) = email d
  ∧ JS.toLowerCase (email d) = email d
  ∧ (∃ pw slt, password d = Some (bcrypt_hash pw 10 slt)
               ∧ (5 ≤ JS.length pw)%nat)
  ∧ createdAt d = updatedAt d.

(** The statuses each endpoint can answer with. *)
Definition statuses (ep : Endpoint) : list nat :=
  match ep with
  | POST_register => [201; 400; 500]%nat
  | POST_login => [200; 400; 401; 500]%nat
  | GET_me => [200; 401; 404; 500]%nat
  end.

End MoreDefinitions.


(** ** Invariants of the collection *)

Section Invariants.
Context `{strings : JS.Strings} `{crypto : Crypto} `{driver : Driver}.
Import Mongoose.

(** The two ways a registration ends: nothing stored and a rejection, or
    one new document for fields that passed validation and an email that
    was free. *)
Lemma register_outcome req env db resp db' :
  run (register req) env db = (inr resp, db') →
  (db' = db
   ∧ (resp = failure 400 "Email is already registered"
      ∨ ∃ msg, resp = error_500 msg))
  ∨ ∃ fn ln e pw,
      register_fields req
      = {| create_firstName := Some fn; create_lastName := Some ln;
           create_email := Some e; create_password := Some pw |}
      ∧ set_name fn ≠ "" ∧ set_name ln ≠ "" ∧ set_email e ≠ ""
      ∧ (5 ≤ JS.length pw)%nat
      ∧ existsb (λ d, String.eqb (email d) (set_email e)) db = false
      ∧ db' = (db ++ [new_doc fn ln e pw env db])%list
      ∧ resp = success_token 201 (token_for (new_doc fn ln e pw env db) env)
                 (new_doc fn ln e pw env db).
Proof.
  rewrite run_register.
  destruct (findOne (body req !! "email") false db).
  { intros [= <- <-]. left. auto. }
  destruct (create (register_fields req) env db) as [[msg | u] d1] eqn:Hc.
  - apply create_inl in Hc. subst d1. intros [= <- <-]. left. eauto.
  - apply create_inr in Hc.
    destruct Hc as (fn & ln & e & pw & Hf & V1 & V2 & V3 & V4 & Hx & -> & ->).
    intros [= <- <-]. right. exists fn, ln, e, pw. auto 10.
Qed.

(** To show that every collection the API can produce has a property, show
    it of the empty collection and show that a registration that stores a
    document keeps it. *)
Lemma reachable_invariant (P : list Doc → Prop) :
  P [] →
  (∀ db fn ln e pw env,
     reachable db → P db →
     set_name fn ≠ "" → set_name ln ≠ "" → set_email e ≠ "" →
     (5 ≤ JS.length pw)%nat →
     existsb (λ d, String.eqb (email d) (set_email e)) db = false →
     P (db ++ [new_doc fn ln e pw env db])%list) →
  ∀ db, reachable db → P db.
Proof.
  intros Hnil Hstep db Hreach.
  induction Hreach as [| db ep req env out db' Hreach IH Hrun]; [exact Hnil |].
  destruct ep; cbn [handler] in Hrun.
  - destruct (register_frame req env db) as (resp & db'' & Hr & _).
    rewrite Hr in Hrun. injection Hrun as <- <-.
    apply register_outcome in Hr.
    destruct Hr as [[-> _] | (fn & ln & e & pw & _ & V1 & V2 & V3 & V4 & Hx
                              & -> & _)]; [exact IH |].
    now apply Hstep.
  - pose proof (login_frame req env db) as Hf. rewrite Hrun in Hf.
    simpl in Hf. now subst.
  - pose proof (me_frame req env db) as Hf. rewrite Hrun in Hf.
    simpl in Hf. now subst.
Qed.

Lemma ids_below_new db : Forall (λ d, _id d < new_ObjectId db) db.
Proof.
  unfold new_ObjectId. induction db as [| d db IH]; constructor; simpl.
  - apply N.lt_succ_r, N.le_max_l.
  - eapply Forall_impl; [exact IH |]. simpl. intros d' Hd'.
    apply N.lt_succ_r. apply N.lt_succ_r in Hd'.
    etransitivity; [exact Hd' | apply N.le_max_r].
Qed.

Lemma email_absent db e :
  existsb (λ d, String.eqb (email d) e) db = false →
  ¬ In e (email <$> db).
Proof.
  induction db as [| d db IH]; simpl; [tauto |].
  intros Hx. apply orb_false_iff in Hx. destruct Hx as [Hd Hx].
  apply String.eqb_neq in Hd. intros [Heq | Hin]; [congruence |].
  now apply IH.
Qed.

Lemma NoDup_snoc {A : Type} (l : list A) (x : A) :
  NoDup l → ¬ In x l → NoDup (l ++ [x]).
Proof.
  intros Hl Hx. apply NoDup_app. split; [exact Hl |]. split.
  - intros y Hy Hy'. apply list_elem_of_In in Hy.
    apply list_elem_of_singleton in Hy'. now subst.
  - apply NoDup_singleton.
Qed.

(** The driver gives every new document an [_id] of its own. *)
Lemma ids_are_unique db : reachable db → NoDup (_id <$> db).
Proof.
  revert db. apply reachable_invariant; [constructor |].
  intros db fn ln e pw env _ Hi _ _ _ _ _.
  rewrite fmap_app. cbn [fmap list_fmap new_doc _id].
  apply NoDup_snoc; [exact Hi |].
  intros Hin. apply list_elem_of_In, list_elem_of_fmap in Hin.
  destruct Hin as (d & Hd & Hin).
  pose proof (ids_below_new db) as Hb. rewrite List.Forall_forall in Hb.
  apply list_elem_of_In in Hin. specialize (Hb d Hin). lia.
Qed.

(** X1. In every collection the API can produce, no two documents have
    the same email (the duplicate check of register and the unique index
    see to it) and no two have the same [_id]. *)
Theorem emails_and_ids_are_unique db :
  reachable db →
  NoDup (email <$> db) ∧ NoDup (_id <$> db).
Proof.
  intros Hreach. split; [| now apply ids_are_unique].
  revert db Hreach. apply reachable_invariant; [constructor |].
  intros db fn ln e pw env _ He _ _ _ _ Hx.
  rewrite fmap_app. cbn [fmap list_fmap new_doc email].
  apply NoDup_snoc; [exact He |]. now apply email_absent.
Qed.

Lemma trim_trims s : JS.trim (JS.trim s) = JS.trim s.
Proof. apply JS.trim_trim. Qed.

(** X2. Every document of a collection the API can produce has trimmed
    names that are not empty, an email that is not empty, trimmed and in
    lower case, a password that is the bcrypt hash with 10 rounds of a
    string of five characters or more, and equal time stamps. *)
Theorem stored_documents_are_well_formed db :
  reachable db → Forall well_formed db.
Proof.
  revert db. apply reachable_invariant; [constructor |].
  intros db fn ln e pw env _ IH V1 V2 V3 V4 _.
  apply Forall_app. split; [exact IH |]. constructor; [| constructor].
  unfold well_formed, new_doc; cbn.
  split; [exact V1 |]. split; [apply trim_trims |].
  split; [exact V2 |]. split; [apply trim_trims |].
  split; [exact V3 |]. split; [apply trim_trims |].
  split.
  { unfold set_email. apply JS.toLowerCase_trim_toLowerCase. }
  split; [eauto | reflexivity].
Qed.

(** X3. A registration stores a user exactly when it answers 201: then
    the collection has one document more, and otherwise it is the same
    collection. *)
Theorem user_created_exactly_on_201 req env db resp db' :
  run (register req) env db = (inr resp, db') →
  (status resp = 201%nat ↔ length db' = S (length db))
  ∧ (status resp ≠ 201%nat → db' = db).
Proof.
  intros Hrun. apply register_outcome in Hrun.
  destruct Hrun as [[-> Hresp] | (fn & ln & e & pw & _ & _ & _ & _ & _ & _
                                  & -> & ->)].
  - assert (Hst : status resp ≠ 201%nat)
      by (destruct Hresp as [-> | [msg ->]]; discriminate).
    split; [split; [tauto | lia] | reflexivity].
  - rewrite length_app. cbn. split; [split; [lia | reflexivity] | tauto].
Qed.

End Invariants.

(** ** Tokens across requests *)

Section Tokens.
Context `{strings : JS.Strings} `{crypto : Crypto} `{driver : Driver}.
Import Mongoose.

(** The ways a login ends. *)
Lemma login_outcome req env db resp db' :
  run (login req) env db = (inr resp, db') →
  db' = db
  ∧ ((∃ e u, body req !! "email" = Some e ∧ In u db
             ∧ email u = set_email e
             ∧ resp = success_token 200 (token_for u env) u)
     ∨ resp = failure 400 "Please provide email and password"
     ∨ resp = failure 401 "Invalid email or password"
     ∨ ∃ msg, resp = error_500 msg).
Proof.
  rewrite run_login. intros [= Hresp <-]. split; [reflexivity |].
  destruct (negb (JS.truthy (body req !! "email"))
            || negb (JS.truthy (body req !! "password"))) eqn:Hmiss; [auto |].
  destruct (body req !! "email") as [e |] eqn:He; [| discriminate].
  destruct (findOne (Some e) true db) as [u' |] eqn:Hf; [| auto].
  apply findOne_Some in Hf. destruct Hf as (u & Hin & Hemail & ->).
  cbn [project] in Hresp.
  destruct (body req !! "password") as [s |], (password u) as [h |];
    eauto 10.
  destruct (bcrypt_compare s h); [| auto]. left. exists e, u. auto.
Qed.

(** The ways a me ends. *)
Lemma me_outcome req env db resp db' :
  run (me req) env db = (inr resp, db') →
  db' = db
  ∧ ((∃ u, In u db ∧ resp = success_user u)
     ∨ resp = failure 401 "Not authorized to access this route"
     ∨ resp = failure 404 "User not found"
     ∨ ∃ msg, resp = error_500 msg).
Proof.
  rewrite run_me. intros [= Hresp <-]. split; [reflexivity |].
  destruct (negb (JS.truthy (bearer_token req))); [auto |].
  destruct (bearer_token req) as [t |]; [| eauto 10].
  destruct (jwt_verify t JWT_SECRET (now env)) as [msg | decoded];
    [eauto 10 |].
  unfold findById in Hresp.
  destruct (List.find (λ d, _id d =? decoded_id decoded) db) as [u |] eqn:Hf;
    [| auto].
  apply find_some in Hf. destruct Hf as [Hin _].
  left. exists u. split; [exact Hin |]. now subst resp.
Qed.

(** A response carries a token only on a successful registration or
    login, and the token is the one made for the user of the response, a
    document of the collection. *)
Lemma issued_token ep req env db resp db' token :
  run (handler ep req) env db = (inr resp, db') →
  json_get "token" (json_body resp) = Some (JStr token) →
  ∃ u, In u db' ∧ token = token_for u env
       ∧ json_get "user" (json_body resp) = Some (public_user u).
Proof.
  destruct ep; cbn [handler]; intros Hrun Htok.
  - apply register_outcome in Hrun.
    destruct Hrun as [[_ [-> | [msg ->]]] | (fn & ln & e & pw & _ & _ & _ & _
                                             & _ & _ & -> & ->)];
      try discriminate.
    injection Htok as <-. eexists. split; [| split; reflexivity].
    apply in_or_app. right. now left.
  - apply login_outcome in Hrun.
    destruct Hrun as [-> [(e & u & _ & Hin & _ & ->) | [-> | [-> | [msg ->]]]]];
      try discriminate.
    injection Htok as <-. exists u. auto.
  - apply me_outcome in Hrun.
    destruct Hrun as [-> [(u & _ & ->) | [-> | [-> | [msg ->]]]]];
      discriminate.
Qed.

Lemma handler_extends ep req env db out db' :
  run (handler ep req) env db = (out, db') → ∃ l, db' = (db ++ l)%list.
Proof.
  intros Hrun. destruct ep; cbn [handler] in Hrun.
  - destruct (register_frame req env db) as (resp & db'' & Hr & Hd).
    rewrite Hr in Hrun. injection Hrun as <- <-.
    destruct Hd as [-> | (fn & ln & e & pw & _ & -> & _)];
      [exists []; now rewrite app_nil_r | eauto].
  - pose proof (login_frame req env db) as Hf. rewrite Hrun in Hf.
    simpl in Hf. subst. exists []. now rewrite app_nil_r.
  - pose proof (me_frame req env db) as Hf. rewrite Hrun in Hf.
    simpl in Hf. subst. exists []. now rewrite app_nil_r.
Qed.

(** Further requests keep every document, in place. *)
Lemma later_extends db db' : later db db' → ∃ l, db' = (db ++ l)%list.
Proof.
  induction 1 as [db | db db1 ep req env out db2 _ [l ->] Hrun].
  - exists []. now rewrite app_nil_r.
  - apply handler_extends in Hrun. destruct Hrun as [l' ->].
    exists (l ++ l')%list. now rewrite app_assoc.
Qed.

Lemma later_reachable db db' : reachable db → later db db' → reachable db'.
Proof.
  intros Hreach. induction 1 as [| db db1 ep req env out db2 _ IH Hrun];
    [exact Hreach |].
  exact (reachable_request db1 ep req env out db2 (IH Hreach) Hrun).
Qed.

Lemma find_by_id db u :
  NoDup (_id <$> db) → In u db →
  List.find (λ d, _id d =? _id u) db = Some u.
Proof.
  induction db as [| d db IH]; [contradiction |].
  cbn [fmap list_fmap]. intros Hnd Hin. apply NoDup_cons in Hnd.
  destruct Hnd as [Hd Hnd]. cbn [List.find].
  destruct Hin as [-> | Hin]; [now rewrite N.eqb_refl |].
  destruct (N.eqb_spec (_id d) (_id u)) as [Heq | _]; [| now apply IH].
  exfalso. apply Hd. rewrite Heq. apply list_elem_of_fmap. exists u.
  split; [reflexivity | now apply list_elem_of_In].
Qed.

(** X4. A token that a registration or a login issued opens me for 30
    days, whatever requests the server handles in between: presented as
    the second word of the authorization header, it is answered 200 with
    the [user] object of the response that issued it. *)
Theorem issued_token_opens_me db ep req env resp db1 token db2 req' env' :
  reachable db →
  run (handler ep req) env db = (inr resp, db1) →
  json_get "token" (json_body resp) = Some (JStr token) →
  later db1 db2 →
  bearer_token req' = Some token →
  token ≠ "" →
  now env' < now env + 30 * 24 * 60 * 60 →
  ∃ u,
    In u db1
    ∧ json_get "user" (json_body resp) = Some (public_user u)
    ∧ run (me req') env' db2
      = (inr {| status := 200;
                json_body := JObj [("success", JBool true);
                                   ("user", public_user u)] |}, db2).
Proof.
  intros Hreach Hrun Htok Hlater Hbearer Hne Htime.
  destruct (issued_token ep req env db resp db1 token Hrun Htok)
    as (u & Hin & -> & Huser).
  exists u. split; [exact Hin |]. split; [exact Huser |].
  assert (Hreach2 : reachable db2).
  { apply (later_reachable db1); [| exact Hlater].
    exact (reachable_request db ep req env _ db1 Hreach Hrun). }
  pose proof (ids_are_unique db2 Hreach2) as Hids.
  destruct (later_extends db1 db2 Hlater) as [l ->].
  assert (Hin2 : In u (db1 ++ l)) by (apply in_or_app; now left).
  rewrite run_me, Hbearer.
  assert (Htr : JS.truthy (Some (token_for u env)) = true)
    by now apply JSFacts.truthy_Some.
  rewrite Htr. cbn [negb]. unfold token_for at 1.
  rewrite jwt_verify_sign by exact Htime. cbn [decoded_id payload_id].
  unfold findById. rewrite (find_by_id _ u Hids Hin2). reflexivity.
Qed.

(** X5. Every token the API issues, from any collection it can produce,
    is signed with the server secret for 30 days, for the id of a stored
    user and the role [user]: no response carries a token for the role
    [admin]. *)
Theorem issued_tokens_are_for_role_user db ep req env resp db' token :
  reachable db →
  run (handler ep req) env db = (inr resp, db') →
  json_get "token" (json_body resp) = Some (JStr token) →
  ∃ u, In u db'
       ∧ token = jwt_sign {| payload_id := _id u; payload_role := Role_user |}
                   JWT_SECRET (30 * 24 * 60 * 60) (now env).
Proof.
  intros Hreach Hrun Htok.
  destruct (issued_token ep req env db resp db' token Hrun Htok)
    as (u & Hin & -> & _).
  exists u. split; [exact Hin |].
  assert (Hr' : reachable db')
    by exact (reachable_request db ep req env _ db' Hreach Hrun).
  apply reachable_stored_ok in Hr'. rewrite List.Forall_forall in Hr'.
  destruct (Hr' u Hin) as [_ Hrole]. unfold token_for. now rewrite Hrole.
Qed.

End Tokens.

(** ** The authorization header, the status codes, the email spelling *)

Section Interface.
Context `{strings : JS.Strings} `{crypto : Crypto} `{driver : Driver}.
Import Mongoose.

Lemma split_without_space h : no_space h = true → JS.split " " h = [h].
Proof.
  induction h as [| c h IH]; [reflexivity |].
  simpl. intros Hh. apply andb_true_iff in Hh. destruct Hh as [Hc Hh].
  destruct (Ascii.eqb c " "); [discriminate |]. now rewrite (IH Hh).
Qed.

Lemma bearer_token_second_word req w rest :
  authorization req = Some (w +:+ " " +:+ rest) →
  no_space w = true →
  bearer_token req = head (JS.split " " rest).
Proof.
  intros Hauth Hw. unfold bearer_token. rewrite Hauth. cbn [mbind option_bind].
  rewrite (JSMore.split_first_word w rest Hw).
  now destruct (JS.split " " rest).
Qed.

(** X6. Me does not look at the first word of the authorization header:
    two headers that differ only in the word before the first space
    ([Bearer], [Token], nothing at all) get the same answer. *)
Theorem me_ignores_the_scheme req1 req2 w1 w2 rest env db :
  authorization req1 = Some (w1 +:+ " " +:+ rest) →
  authorization req2 = Some (w2 +:+ " " +:+ rest) →
  no_space w1 = true →
  no_space w2 = true →
  run (me req1) env db = run (me req2) env db.
Proof.
  intros H1 H2 Hw1 Hw2. rewrite !run_me.
  rewrite (bearer_token_second_word req1 w1 rest H1 Hw1).
  rewrite (bearer_token_second_word req2 w2 rest H2 Hw2).
  reflexivity.
Qed.

(** X7. Me answers 401 exactly when the authorization header has no
    second word: when the header is absent, when it has no space (a bare
    token without a scheme before it), when its first space is followed
    by another space or by nothing. *)
Theorem me_401_exactly_without_second_word req env db :
  ∃ resp,
    run (me req) env db = (inr resp, db)
    ∧ (status resp = 401%nat ↔ JS.truthy (bearer_token req) = false)
    ∧ (authorization req = None → status resp = 401%nat)
    ∧ (∀ h, authorization req = Some h → no_space h = true →
            status resp = 401%nat)
    ∧ (∀ w rest, authorization req = Some (w +:+ " " +:+ " " +:+ rest) →
                 no_space w = true → status resp = 401%nat)
    ∧ (∀ w, authorization req = Some (w +:+ " ") →
            no_space w = true → status resp = 401%nat).
Proof.
  rewrite run_me. eexists. split; [reflexivity |].
  assert (Hiff : status
            (if negb (JS.truthy (bearer_token req))
             then failure 401 "Not authorized to access this route"
             else match bearer_token req with
                  | None => error_500 "jwt must be provided"
                  | Some t =>
                      match jwt_verify t JWT_SECRET (now env) with
                      | inl e => error_500 e
                      | inr decoded =>
                          match findById (decoded_id decoded) db with
                          | None => failure 404 "User not found"
                          | Some u => success_user u
                          end
                      end
                  end) = 401%nat
          ↔ JS.truthy (bearer_token req) = false).
  { destruct (JS.truthy (bearer_token req)) eqn:Htr; cbn [negb];
      [| split; reflexivity].
    split; [| discriminate].
    destruct (bearer_token req) as [t |]; [| discriminate].
    destruct (jwt_verify t JWT_SECRET (now env)) as [msg | decoded];
      [discriminate |].
    destruct (findById (decoded_id decoded) db); discriminate. }
  split; [exact Hiff |].
  split; [| split; [| split]].
  - intros Hnone. apply Hiff. unfold bearer_token. now rewrite Hnone.
  - intros h Hh Hns. apply Hiff. unfold bearer_token. rewrite Hh.
    cbn [mbind option_bind]. now rewrite (split_without_space h Hns).
  - intros w rest Hh Hns. apply Hiff.
    rewrite (bearer_token_second_word req w (" " +:+ rest) Hh Hns).
    reflexivity.
  - intros w Hh Hns. apply Hiff.
    rewrite (bearer_token_second_word req w "" Hh Hns). reflexivity.
Qed.

(** Every handler answers. *)
Lemma handler_answers ep req env db :
  ∃ resp db', run (handler ep req) env db = (inr resp, db').
Proof.
  destruct ep; cbn [handler].
  - destruct (register_frame req env db) as (resp & db' & Hr & _). eauto.
  - rewrite run_login. eauto.
  - rewrite run_me. eauto.
Qed.

(** The shapes of the answers of each endpoint. *)
Lemma response_shapes ep req env db resp db' :
  run (handler ep req) env db = (inr resp, db') →
  match ep with
  | POST_register =>
      (∃ t u, resp = success_token 201 t u)
      ∨ resp = failure 400 "Email is already registered"
      ∨ ∃ msg, resp = error_500 msg
  | POST_login =>
      (∃ t u, resp = success_token 200 t u)
      ∨ resp = failure 400 "Please provide email and password"
      ∨ resp = failure 401 "Invalid email or password"
      ∨ ∃ msg, resp = error_500 msg
  | GET_me =>
      (∃ u, resp = success_user u)
      ∨ resp = failure 401 "Not authorized to access this route"
      ∨ resp = failure 404 "User not found"
      ∨ ∃ msg, resp = error_500 msg
  end.
Proof.
  destruct ep; cbn [handler]; intros Hrun.
  - apply register_outcome in Hrun.
    destruct Hrun as [[_ [-> | [msg ->]]] | (fn & ln & e & pw & _ & _ & _ & _
                                             & _ & _ & _ & ->)]; eauto.
  - apply login_outcome in Hrun.
    destruct Hrun as [_ [(e & u & _ & _ & _ & ->) | [-> | [-> | [msg ->]]]]];
      eauto 10.
  - apply me_outcome in Hrun.
    destruct Hrun as [_ [(u & _ & ->) | [-> | [-> | [msg ->]]]]]; eauto 10.
Qed.

Ltac settle_status :=
  cbn;
  repeat match goal with
         | |- _ ∧ _ => split
         | |- _ ↔ _ => split
         end;
  intros; break_hyps;
  repeat match goal with
         | H : is_Some None |- _ => destruct H as [? H]
         | H : ?x ≠ ?x |- _ => now destruct H
         end;
  try discriminate; try contradiction; try lia;
  try (eexists; reflexivity); auto 10.

(** X8. Each endpoint answers with one of its own statuses (register:
    201, 400, 500; login: 200, 400, 401, 500; me: 200, 401, 404, 500), and
    the body goes with the status: [success] is [true] and there is a
    [user] exactly on 200 and 201, [success] is [false] and there is a
    [message] exactly on the statuses from 400 on, and there is a [token]
    exactly on the 201 of register and the 200 of login. *)
Theorem status_and_body_agree ep req env db :
  ∃ resp db',
    run (handler ep req) env db = (inr resp, db')
    ∧ In (status resp) (statuses ep)
    ∧ (json_get "success" (json_body resp) = Some (JBool true)
       ↔ status resp = 200%nat ∨ status resp = 201%nat)
    ∧ (json_get "success" (json_body resp) = Some (JBool false)
       ↔ (400 ≤ status resp)%nat)
    ∧ (is_Some (json_get "user" (json_body resp))
       ↔ status resp = 200%nat ∨ status resp = 201%nat)
    ∧ (is_Some (json_get "message" (json_body resp))
       ↔ (400 ≤ status resp)%nat)
    ∧ (is_Some (json_get "token" (json_body resp))
       ↔ (status resp = 200%nat ∨ status resp = 201%nat) ∧ ep ≠ GET_me).
Proof.
  destruct (handler_answers ep req env db) as (resp & db' & Hrun).
  exists resp, db'. split; [exact Hrun |].
  apply response_shapes in Hrun.
  destruct ep; cbn in Hrun; break_hyps; subst resp; settle_status.
Qed.

(** X9. Login does not depend on how the email is spelled: two requests
    whose emails become the same under lowercasing and trimming, with the
    same password, get the same answer. *)
Theorem login_ignores_email_spelling req1 req2 e1 e2 env db :
  body req1 !! "email" = Some e1 →
  body req2 !! "email" = Some e2 →
  e1 ≠ "" → e2 ≠ "" →
  JS.trim (JS.toLowerCase e1) = JS.trim (JS.toLowerCase e2) →
  body req1 !! "password" = body req2 !! "password" →
  run (login req1) env db = run (login req2) env db.
Proof.
  intros H1 H2 N1 N2 Hsame Hpw. rewrite !run_login, H1, H2, Hpw.
  apply JSFacts.truthy_Some in N1. apply JSFacts.truthy_Some in N2.
  rewrite N1, N2. cbn [negb orb].
  assert (Hf : findOne (Some e1) true db = findOne (Some e2) true db).
  { unfold findOne, set_email. now rewrite Hsame. }
  now rewrite Hf.
Qed.

End Interface.

(** ** What validation refuses *)

(** The paths of the schema that are required, each with the value the
    register handler gives it, as its setter leaves it, and with its
    message. *)
Definition required_paths `{strings : JS.Strings} (req : Request)
  : list (string * option string * string) :=
  [("firstName", JS.trim <$> body req !! "firstName",
    "Please provide your first name");
   ("lastName", JS.trim <$> body req !! "lastName",
    "Please provide your last name");
   ("email", (λ e, JS.trim (JS.toLowerCase e)) <$> body req !! "email",
    "Please provide your email");
   ("password", body req !! "password", "Please provide a password")].

Section Validation.
Context `{strings : JS.Strings} `{crypto : Crypto} `{driver : Driver}.
Import Mongoose.

Lemma first_error_required path msg v rest :
  JS.truthy v = false →
  first_error path (required msg v :: rest) = [(path, msg)].
Proof. intros Hv. unfold first_error, required. now rewrite Hv. Qed.

Lemma first_error_passed path msg v :
  JS.truthy v = true → first_error path [required msg v] = [].
Proof. intros Hv. unfold first_error, required. now rewrite Hv. Qed.

Lemma required_path_in_errors req p v m :
  In (p, v, m) (required_paths req) →
  JS.truthy v = false →
  In (p, m) (validate (construct (register_fields req))).
Proof.
  unfold required_paths, validate, construct, register_fields.
  cbn [create_firstName create_lastName create_email create_password].
  intros Hin Hv.
  destruct Hin as [[= <- <- <-] | [[= <- <- <-] | [[= <- <- <-]
                    | [[= <- <- <-] | []]]]];
    rewrite (first_error_required _ _ _ _ Hv);
    repeat (apply in_or_app; first [left; now left | right]).
  now left.
Qed.

Lemma create_refuses f env db p m :
  In (p, m) (validate (construct f)) →
  create f env db
  = (inl (ValidationError_message (validate (construct f))), db)
    ∧ JS.includes (ValidationError_message (validate (construct f)))
        (p +:+ ": " +:+ m) = true.
Proof.
  intros Hin. split.
  - unfold create. destruct (validate (construct f)); [contradiction |].
    reflexivity.
  - unfold ValidationError_message. apply JSMore.includes_later.
    apply JSMore.includes_join.
    apply (in_map (λ e, fst e +:+ ": " +:+ snd e)) in Hin. exact Hin.
Qed.

(** X10. A registration that passes the duplicate check but leaves a
    required path missing or blank (empty, or only white space for the
    names and the email) stores nothing and is answered 500; the [error]
    of the response names the path with the message the schema gives
    it. *)
Theorem blank_required_path_is_refused req env db p v m :
  findOne (body req !! "email") false db = None →
  In (p, v, m) (required_paths req) →
  JS.truthy v = false →
  ∃ error,
    run (register req) env db
    = (inr {| status := 500;
              json_body := JObj [("success", JBool false);
                                 ("message", JStr "Server error");
                                 ("error", JStr error)] |}, db)
    ∧ JS.includes error (p +:+ ": " +:+ m) = true.
Proof.
  intros Hfree Hin Hv.
  pose proof (required_path_in_errors req p v m Hin Hv) as Herr.
  destruct (create_refuses (register_fields req) env db p m Herr)
    as [Hc Hinc].
  eexists. split; [| exact Hinc].
  rewrite run_register, Hfree, Hc. reflexivity.
Qed.


End Validation.

(** ** Documents across requests *)

Section Persistence.
Context `{strings : JS.Strings} `{crypto : Crypto} `{driver : Driver}.
Import Mongoose.

(** X12. Whatever requests the server handles, a stored document stays
    what it is and where it is: the collection only grows at its end. *)
Theorem documents_are_never_changed db db' (i : nat) d :
  later db db' →
  db !! i = Some d →
  db' !! i = Some d ∧ (length db ≤ length db')%nat.
Proof.
  intros Hlater Hd. destruct (later_extends db db' Hlater) as [l ->].
  split; [now apply lookup_app_l_Some |]. rewrite length_app. lia.
Qed.

End Persistence.

(** ** More runs *)

Section MoreRuns.
#[local] Existing Instance JSFacts.latin1_strings.
#[local] Existing Instance ToyFacts.crypto.
#[local] Existing Instance ToyFacts.driver.
Import Mongoose.

(** A second registration, at time 1500, after Ada's. *)
Definition grace_request : Request :=
  {| body := list_to_map [("firstName", "Grace"); ("lastName", " Hopper ");
                          ("email", "GRACE@example.com");
                          ("password", "cobol")];
     authorization := None |}.

Definition grace : Doc :=
  {| _id := 2; firstName := "Grace"; lastName := "Hopper";
     email := "grace@example.com";
     password := Some (Toy.hash "cobol" 10 "NaCl");
     role := Role_user; createdAt := 1500; updatedAt := 1500 |}.

Lemma grace_registration :
  run (register grace_request) (env_at 1500) [ada]
  = (inr (success_token 201 (token_for grace (env_at 1500)) grace),
     [ada; grace]).
Proof. vm_compute. reflexivity. Qed.

Lemma ada_then_grace : later [ada] [ada; grace].
Proof.
  exact (later_request [ada] [ada] POST_register grace_request (env_at 1500)
           _ _ (later_now [ada]) grace_registration).
Qed.

Lemma two_users_reachable : reachable [ada; grace].
Proof.
  exact (reachable_request [ada] POST_register grace_request (env_at 1500)
           _ _ ada_reachable grace_registration).
Qed.

Lemma ada_logs_in :
  run (handler POST_login ada_login) (env_at 2000) [ada]
  = (inr (success_token 200 ada_token ada), [ada]).
Proof. vm_compute. reflexivity. Qed.

(** The same token after another scheme word, and on its own. *)
Definition ada_me_other_scheme : Request :=
  {| body := ∅; authorization := Some ("Token " +:+ ada_token) |}.

Definition ada_me_bare : Request :=
  {| body := ∅; authorization := Some ada_token |}.

Definition ada_login_shouting : Request :=
  {| body := list_to_map [("email", "ADA@EXAMPLE.COM");
                          ("password", "correct horse")];
     authorization := None |}.

Definition blank_name_request : Request :=
  {| body := list_to_map [("firstName", "   "); ("lastName", "Lovelace");
                          ("email", "ada@example.com");
                          ("password", "correct horse")];
     authorization := None |}.

Lemma emails_and_ids_are_unique_witness :
  reachable [ada; grace]
  ∧ NoDup (email <$> [ada; grace]) ∧ NoDup (_id <$> [ada; grace]).
Proof.
  split; [exact two_users_reachable |].
  exact (emails_and_ids_are_unique [ada; grace] two_users_reachable).
Defined.

Lemma stored_documents_are_well_formed_witness :
  reachable [ada; grace] ∧ Forall well_formed [ada; grace].
Proof.
  split; [exact two_users_reachable |].
  exact (stored_documents_are_well_formed [ada; grace] two_users_reachable).
Defined.

Lemma user_created_exactly_on_201_witness :
  run (register grace_request) (env_at 1500) [ada]
  = (inr (success_token 201 (token_for grace (env_at 1500)) grace),
     [ada; grace])
  ∧ (status (success_token 201 (token_for grace (env_at 1500)) grace)
     = 201%nat ↔ length [ada; grace] = S (length [ada]))
  ∧ (status (success_token 201 (token_for grace (env_at 1500)) grace)
     ≠ 201%nat → [ada; grace] = [ada]).
Proof.
  split; [exact grace_registration |].
  exact (user_created_exactly_on_201 grace_request (env_at 1500) [ada] _ _
           grace_registration).
Defined.

Lemma issued_token_opens_me_witness :
  reachable [ada]
  ∧ run (handler POST_login ada_login) (env_at 2000) [ada]
    = (inr (success_token 200 ada_token ada), [ada])
  ∧ later [ada] [ada; grace]
  ∧ bearer_token ada_me = Some ada_token
  ∧ ada_token ≠ ""
  ∧ now (env_at 3000) < now (env_at 2000) + 30 * 24 * 60 * 60
  ∧ ∃ u,
      In u [ada]
      ∧ json_get "user" (json_body (success_token 200 ada_token ada))
        = Some (public_user u)
      ∧ run (me ada_me) (env_at 3000) [ada; grace]
        = (inr {| status := 200;
                  json_body := JObj [("success", JBool true);
                                     ("user", public_user u)] |},
           [ada; grace]).
Proof.
  assert (Hb : bearer_token ada_me = Some ada_token)
    by (vm_compute; reflexivity).
  assert (Hne : ada_token ≠ "") by (vm_compute; discriminate).
  assert (Ht : now (env_at 3000) < now (env_at 2000) + 30 * 24 * 60 * 60)
    by reflexivity.
  split; [exact ada_reachable |]. split; [exact ada_logs_in |].
  split; [exact ada_then_grace |]. split; [exact Hb |].
  split; [exact Hne |]. split; [exact Ht |].
  exact (issued_token_opens_me [ada] POST_login ada_login (env_at 2000)
           _ [ada] ada_token [ada; grace] ada_me (env_at 3000)
           ada_reachable ada_logs_in eq_refl ada_then_grace Hb Hne Ht).
Defined.

Lemma issued_tokens_are_for_role_user_witness :
  reachable [ada]
  ∧ run (handler POST_login ada_login) (env_at 2000) [ada]
    = (inr (success_token 200 ada_token ada), [ada])
  ∧ ∃ u, In u [ada]
         ∧ ada_token
           = jwt_sign {| payload_id := _id u; payload_role := Role_user |}
               JWT_SECRET (30 * 24 * 60 * 60) (now (env_at 2000)).
Proof.
  split; [exact ada_reachable |]. split; [exact ada_logs_in |].
  exact (issued_tokens_are_for_role_user [ada] POST_login ada_login
           (env_at 2000) _ [ada] ada_token ada_reachable ada_logs_in
           eq_refl).
Defined.

Lemma me_ignores_the_scheme_witness :
  authorization ada_me = Some ("Bearer" +:+ " " +:+ ada_token)
  ∧ authorization ada_me_other_scheme = Some ("Token" +:+ " " +:+ ada_token)
  ∧ no_space "Bearer" = true
  ∧ no_space "Token" = true
  ∧ run (me ada_me) (env_at 3000) [ada]
    = run (me ada_me_other_scheme) (env_at 3000) [ada].
Proof.
  do 4 (split; [reflexivity |]).
  exact (me_ignores_the_scheme ada_me ada_me_other_scheme "Bearer" "Token"
           ada_token (env_at 3000) [ada] eq_refl eq_refl eq_refl eq_refl).
Defined.

Lemma me_401_exactly_without_second_word_witness :
  authorization ada_me_bare = Some ada_token
  ∧ no_space ada_token = true
  ∧ ∃ resp,
      run (me ada_me_bare) (env_at 3000) [ada] = (inr resp, [ada])
      ∧ status resp = 401%nat.
Proof.
  assert (Hns : no_space ada_token = true) by (vm_compute; reflexivity).
  split; [reflexivity |]. split; [exact Hns |].
  destruct (me_401_exactly_without_second_word ada_me_bare (env_at 3000)
              [ada]) as (resp & Hrun & _ & _ & Hbare & _).
  exists resp. split; [exact Hrun |].
  exact (Hbare ada_token eq_refl Hns).
Defined.

Lemma login_ignores_email_spelling_witness :
  body ada_login !! "email" = Some " Ada@Example.COM "
  ∧ body ada_login_shouting !! "email" = Some "ADA@EXAMPLE.COM"
  ∧ JS.trim (JS.toLowerCase " Ada@Example.COM ")
    = JS.trim (JS.toLowerCase "ADA@EXAMPLE.COM")
  ∧ body ada_login !! "password" = body ada_login_shouting !! "password"
  ∧ run (login ada_login) (env_at 2000) [ada]
    = run (login ada_login_shouting) (env_at 2000) [ada].
Proof.
  do 4 (split; [reflexivity |]).
  apply (login_ignores_email_spelling ada_login ada_login_shouting
           " Ada@Example.COM " "ADA@EXAMPLE.COM" (env_at 2000) [ada]);
    try reflexivity; discriminate.
Defined.

Lemma blank_required_path_is_refused_witness :
  findOne (body blank_name_request !! "email") false [] = None
  ∧ In ("firstName", Some "", "Please provide your first name")
       (required_paths blank_name_request)
  ∧ JS.truthy (Some "") = false
  ∧ ∃ error,
      run (register blank_name_request) (env_at 1000) []
      = (inr {| status := 500;
                json_body := JObj [("success", JBool false);
                                   ("message", JStr "Server error");
                                   ("error", JStr error)] |}, [])
      ∧ JS.includes error
          ("firstName" +:+ ": " +:+ "Please provide your first name") = true.
Proof.
  assert (Hin : In ("firstName", Some "", "Please provide your first name")
                  (required_paths blank_name_request))
    by (left; reflexivity).
  split; [reflexivity |]. split; [exact Hin |]. split; [reflexivity |].
  exact (blank_required_path_is_refused blank_name_request (env_at 1000) []
           "firstName" (Some "") "Please provide your first name"
           eq_refl Hin eq_refl).
Defined.


Lemma documents_are_never_changed_witness :
  later [ada] [ada; grace]
  ∧ [ada] !! 0%nat = Some ada
  ∧ [ada; grace] !! 0%nat = Some ada
  ∧ (length [ada] ≤ length [ada; grace])%nat.
Proof.
  split; [exact ada_then_grace |]. split; [reflexivity |].
  exact (documents_are_never_changed [ada] [ada; grace] 0 ada
           ada_then_grace eq_refl).
Defined.

End MoreRuns.
